(** * Reaction-path kinetics: the right-hand side, the Jacobian and the
      stepping of [KineticPath::Impl]

    The development embeds [KineticPath::Impl], which the sources hold in
    [Reaktoro/Common/InterpolationUtils.cpp], and proves what its right-hand
    side [function], its [jacobian], [setPartition], [initialize], [step]
    and [solve] do.

    Numbers are IEEE doubles, Rocq's primitive [float]: [std::isfinite] is
    [is_finite], [std::abs] is [abs], comparisons are [ltb].  Eigen's dense
    products are sums of products; the order in which Eigen's kernels add is
    not fixed by the source, and the embedding adds from the left, starting
    at [0]. *)

From Stdlib Require Import List Lia Bool ZArith PeanoNat Uint63 Floats.
From Stdlib Require String Ascii.
Import ListNotations.

Set Implicit Arguments.

(** ** Dense vectors and matrices, as the source uses Eigen's *)

Module Dense.

Definition Vector := list float.
Definition Indices := list nat.

(** A dense matrix: its dimensions and its coefficient accessor
    [M(i, j)]. *)
Record Matrix := mkMatrix {
  mrows : nat;
  mcols : nat;
  coeff : nat -> nat -> float
}.

(** [v[i]]; outside the vector the read is undefined in C++ and [0] here. *)
Definition at_ (v : Vector) (i : nat) : float := nth i v 0%float.

(** [v[i] = x]; nothing is written outside the vector. *)
Fixpoint set_at (v : Vector) (i : nat) (x : float) : Vector :=
  match v, i with
  | [], _ => []
  | _ :: v', O => x :: v'
  | y :: v', S i' => y :: set_at v' i' x
  end.

(** A sum of [n] terms, added from the left starting at [0]. *)
Definition sum_to (n : nat) (f : nat -> float) : float :=
  fold_left (fun acc k => (acc + f k)%float) (seq 0 n) 0%float.

(** [M * N]. *)
Definition mat_mul (M N : Matrix) : Matrix :=
  mkMatrix (mrows M) (mcols N)
    (fun i j => sum_to (mcols M) (fun k => (coeff M i k * coeff N k j)%float)).

(** [M * v]. *)
Definition mat_vec (M : Matrix) (v : Vector) : Vector :=
  map (fun i => sum_to (mcols M) (fun k => (coeff M i k * at_ v k)%float))
      (seq 0 (mrows M)).

(** [tr(M)], the transpose. *)
Definition tr (M : Matrix) : Matrix :=
  mkMatrix (mcols M) (mrows M) (fun i j => coeff M j i).

(** [rows(v, indices)]: the entries of [v] at the given indices. *)
Definition rows (v : Vector) (indices : Indices) : Vector :=
  map (at_ v) indices.

(** [cols(M, indices)]: the columns of [M] at the given indices. *)
Definition cols (M : Matrix) (indices : Indices) : Matrix :=
  mkMatrix (mrows M) (length indices) (fun i j => coeff M i (nth j indices 0)).

(** [v.segment(start, n)] read. *)
Definition segment (v : Vector) (start n : nat) : Vector :=
  firstn n (skipn start v).

(** [v.segment(start, n) = w]: the [n] entries from [start] take the entries
    of [w], the others stay. *)
Definition set_segment (v : Vector) (start n : nat) (w : Vector) : Vector :=
  map (fun i => if (start <=? i) && (i <? start + n)
                then at_ w (i - start) else at_ v i)
      (seq 0 (length v)).

(** [v.resize(n)]: Eigen leaves the entries unspecified; here the old ones
    stay and [0] fills the rest. *)
Definition resize_vec (v : Vector) (n : nat) : Vector :=
  map (at_ v) (seq 0 n).

(** [M.resize(r, c)]: new dimensions, entries unspecified (the accessor is
    kept). *)
Definition resize (M : Matrix) (r c : nat) : Matrix :=
  mkMatrix r c (coeff M).

(** [M.topRows(k) = X] and its three siblings: the block of [M] takes the
    entries of [X] at the same place inside the block. *)
Definition set_topRows (M : Matrix) (k : nat) (X : Matrix) : Matrix :=
  mkMatrix (mrows M) (mcols M)
    (fun i j => if i <? k then coeff X i j else coeff M i j).

Definition set_bottomRows (M : Matrix) (k : nat) (X : Matrix) : Matrix :=
  mkMatrix (mrows M) (mcols M)
    (fun i j => if mrows M - k <=? i
                then coeff X (i - (mrows M - k)) j else coeff M i j).

Definition set_leftCols (M : Matrix) (k : nat) (X : Matrix) : Matrix :=
  mkMatrix (mrows M) (mcols M)
    (fun i j => if j <? k then coeff X i j else coeff M i j).

Definition set_rightCols (M : Matrix) (k : nat) (X : Matrix) : Matrix :=
  mkMatrix (mrows M) (mcols M)
    (fun i j => if mcols M - k <=? j
                then coeff X i (j - (mcols M - k)) else coeff M i j).

(** Block reads and the stacking side by side, used to state what the
    assembled matrices are. *)
Definition topRows (M : Matrix) (k : nat) : Matrix :=
  mkMatrix k (mcols M) (coeff M).

Definition bottomRows (M : Matrix) (k : nat) : Matrix :=
  mkMatrix k (mcols M) (fun i j => coeff M (mrows M - k + i) j).

(** [[X | Y]]: [Y] to the right of [X]. *)
Definition hcat (X Y : Matrix) : Matrix :=
  mkMatrix (mrows X) (mcols X + mcols Y)
    (fun i j => if j <? mcols X then coeff X i j else coeff Y i (j - mcols X)).

(** Two matrices are the same matrix: same dimensions, same entries. *)
Definition same_matrix (M N : Matrix) : Prop :=
  mrows M = mrows N /\ mcols M = mcols N /\
  forall i j, i < mrows M -> j < mcols M -> coeff M i j = coeff N i j.

(** The entries of a matrix, row after row, to compare matrices by
    evaluation. *)
Definition entries (M : Matrix) : list (list float) :=
  map (fun i => map (coeff M i) (seq 0 (mcols M))) (seq 0 (mrows M)).

(** The matrix with the given rows. *)
Definition of_rows (r c : nat) (l : list (list float)) : Matrix :=
  mkMatrix r c (fun i j => nth j (nth i l []) 0%float).

End Dense.

(** ** The kinetic path *)

Module KineticPath.
Import Dense.

(** *** The collaborators *)

(** Modelled from the spec: [ChemicalState] is declared in
    [Reaktoro/Core/ChemicalState.hpp], which is not among the sources; the
    spec gives it a temperature, a pressure and the vector of species molar
    amounts. *)
Record ChemicalState := mkChemicalState {
  temperature : float;
  pressure : float;
  speciesAmounts : Vector
}.

(** Modelled from the spec: [ChemicalState::setSpeciesAmounts(n, indices)]
    is not among the sources; it writes [n] into the amounts of the species
    with the given indices, entry by entry. *)
Definition setSpeciesAmounts (state : ChemicalState) (n : Vector)
    (indices : Indices) : ChemicalState :=
  mkChemicalState (temperature state) (pressure state)
    (fold_left (fun acc k => set_at acc (nth k indices 0) (at_ n k))
               (seq 0 (length indices)) (speciesAmounts state)).

(** A [ChemicalVector]: a value and its derivative with respect to the
    composition. *)
Record ChemicalVector := mkChemicalVector {
  val : Vector;
  ddn : Matrix
}.

(** [ChemicalSystem]: the activities of the species. *)
Record ChemicalSystem := mkChemicalSystem {
  activities : float -> float -> Vector -> ChemicalVector
}.

(** [ReactionSystem]: the stoichiometric matrix (one row per reaction, one
    column per species) and the rates of the reactions. *)
Record ReactionSystem := mkReactionSystem {
  reactions_system : ChemicalSystem;
  numReactions : nat;
  stoichiometricMatrix : Matrix;
  rates : float -> float -> Vector -> ChemicalVector -> ChemicalVector
}.

(** [Partition]: the index sets and the formula matrix of the equilibrium
    species. *)
Record Partition := mkPartition {
  indicesEquilibriumSpecies : Indices;
  indicesKineticSpecies : Indices;
  indicesEquilibriumElements : Indices;
  indicesKineticElements : Indices;
  formulaMatrixEquilibriumSpecies : Matrix
}.

(** [KineticOptions]: of the options only [output.active] decides what the
    path does. *)
Record KineticOptions := mkKineticOptions {
  output_active : bool
}.

(** How a call ends: it returns, or it throws. *)
Inductive completion (X : Type) : Type :=
| Normal (x : X)
| Raised.
Arguments Raised {X}.

(** The equilibrium solver [EquilibriumPath], an object with a state of its
    own: [solve] changes the chemical state in place and may throw. *)
Record EquilibriumOps (EQ : Type) := mkEquilibriumOps {
  equilibrium_setPartition : EQ -> Partition -> EQ;
  equilibrium_solve :
    EQ -> ChemicalState -> Vector -> completion unit * EQ * ChemicalState;
  equilibrium_dndb : EQ -> ChemicalState -> Matrix
}.

(** The callbacks of an [ODEProblem]; they run on the environment [Env] the
    closures captured. *)
Record ODEProblem (Env : Type) := mkODEProblem {
  numEquations : nat;
  ode_function :
    float -> Vector -> Vector -> Env -> completion Z * Vector * Env;
  ode_jacobian :
    float -> Vector -> Matrix -> Env -> completion Z * Matrix * Env
}.

(** What a call of the integrator leaves: whether it returned, the time and
    the vector it was given by reference, its own new state and the
    environment after the callbacks it made. *)
Record Integration (ODE Env : Type) := mkIntegration {
  completed : bool;
  time : float;
  solution : Vector;
  solver : ODE;
  env : Env
}.

(** The stiff integrator [ODEPath].  [setProblem] keeps the number of
    equations; the callbacks it registers are the closures over [this] and
    [state], which the embedding hands over at each call. *)
Record ODEOps (ODE Env : Type) := mkODEOps {
  ode_setProblem : ODE -> nat -> ODE;
  ode_initialize : ODE -> float -> Vector -> ODE;
  ode_integrate :
    ODEProblem Env -> ODE -> float -> Vector -> float -> Env ->
    Integration ODE Env;
  ode_solve :
    ODEProblem Env -> ODE -> float -> float -> Vector -> Env ->
    Integration ODE Env
}.

(** *** The members of [KineticPath::Impl] *)

Section Members.

Variables EQ ODE : Type.

Record Impl := mkImpl {
  reactions : ReactionSystem;
  system : ChemicalSystem;
  partition : Partition;
  options : KineticOptions;
  equilibrium : EQ;
  ode : ODE;
  ispecies_e : Indices;
  ispecies_k : Indices;
  ielements_e : Indices;
  ielements_k : Indices;
  Ne : nat;
  Nk : nat;
  Ee : nat;
  Ek : nat;
  We : Matrix;
  Se : Matrix;
  Sk : Matrix;
  A : Matrix;
  T : float;
  P : float;
  ne : Vector;
  nk : Vector;
  be : Vector;
  benk : Vector;
  a : ChemicalVector;
  r : ChemicalVector;
  Be : Matrix;
  Re : Matrix;
  Rk : Matrix;
  R : Matrix
}.

(** Assignments to one member. *)
Definition set_equilibrium (impl : Impl) (x : EQ) : Impl :=
  {|
    reactions := reactions impl; system := system impl;
    partition := partition impl; options := options impl; equilibrium := x;
    ode := ode impl; ispecies_e := ispecies_e impl;
    ispecies_k := ispecies_k impl; ielements_e := ielements_e impl;
    ielements_k := ielements_k impl; Ne := Ne impl; Nk := Nk impl;
    Ee := Ee impl; Ek := Ek impl; We := We impl; Se := Se impl;
    Sk := Sk impl; A := A impl; T := T impl; P := P impl; ne := ne impl;
    nk := nk impl; be := be impl; benk := benk impl; a := a impl;
    r := r impl; Be := Be impl; Re := Re impl; Rk := Rk impl; R := R impl
  |}.

Definition set_ode (impl : Impl) (x : ODE) : Impl :=
  {|
    reactions := reactions impl; system := system impl;
    partition := partition impl; options := options impl;
    equilibrium := equilibrium impl; ode := x; ispecies_e := ispecies_e impl;
    ispecies_k := ispecies_k impl; ielements_e := ielements_e impl;
    ielements_k := ielements_k impl; Ne := Ne impl; Nk := Nk impl;
    Ee := Ee impl; Ek := Ek impl; We := We impl; Se := Se impl;
    Sk := Sk impl; A := A impl; T := T impl; P := P impl; ne := ne impl;
    nk := nk impl; be := be impl; benk := benk impl; a := a impl;
    r := r impl; Be := Be impl; Re := Re impl; Rk := Rk impl; R := R impl
  |}.

Definition set_T (impl : Impl) (x : float) : Impl :=
  {|
    reactions := reactions impl; system := system impl;
    partition := partition impl; options := options impl;
    equilibrium := equilibrium impl; ode := ode impl;
    ispecies_e := ispecies_e impl; ispecies_k := ispecies_k impl;
    ielements_e := ielements_e impl; ielements_k := ielements_k impl;
    Ne := Ne impl; Nk := Nk impl; Ee := Ee impl; Ek := Ek impl;
    We := We impl; Se := Se impl; Sk := Sk impl; A := A impl; T := x;
    P := P impl; ne := ne impl; nk := nk impl; be := be impl;
    benk := benk impl; a := a impl; r := r impl; Be := Be impl;
    Re := Re impl; Rk := Rk impl; R := R impl
  |}.

Definition set_P (impl : Impl) (x : float) : Impl :=
  {|
    reactions := reactions impl; system := system impl;
    partition := partition impl; options := options impl;
    equilibrium := equilibrium impl; ode := ode impl;
    ispecies_e := ispecies_e impl; ispecies_k := ispecies_k impl;
    ielements_e := ielements_e impl; ielements_k := ielements_k impl;
    Ne := Ne impl; Nk := Nk impl; Ee := Ee impl; Ek := Ek impl;
    We := We impl; Se := Se impl; Sk := Sk impl; A := A impl; T := T impl;
    P := x; ne := ne impl; nk := nk impl; be := be impl; benk := benk impl;
    a := a impl; r := r impl; Be := Be impl; Re := Re impl; Rk := Rk impl;
    R := R impl
  |}.

Definition set_ne (impl : Impl) (x : Vector) : Impl :=
  {|
    reactions := reactions impl; system := system impl;
    partition := partition impl; options := options impl;
    equilibrium := equilibrium impl; ode := ode impl;
    ispecies_e := ispecies_e impl; ispecies_k := ispecies_k impl;
    ielements_e := ielements_e impl; ielements_k := ielements_k impl;
    Ne := Ne impl; Nk := Nk impl; Ee := Ee impl; Ek := Ek impl;
    We := We impl; Se := Se impl; Sk := Sk impl; A := A impl; T := T impl;
    P := P impl; ne := x; nk := nk impl; be := be impl; benk := benk impl;
    a := a impl; r := r impl; Be := Be impl; Re := Re impl; Rk := Rk impl;
    R := R impl
  |}.

Definition set_nk (impl : Impl) (x : Vector) : Impl :=
  {|
    reactions := reactions impl; system := system impl;
    partition := partition impl; options := options impl;
    equilibrium := equilibrium impl; ode := ode impl;
    ispecies_e := ispecies_e impl; ispecies_k := ispecies_k impl;
    ielements_e := ielements_e impl; ielements_k := ielements_k impl;
    Ne := Ne impl; Nk := Nk impl; Ee := Ee impl; Ek := Ek impl;
    We := We impl; Se := Se impl; Sk := Sk impl; A := A impl; T := T impl;
    P := P impl; ne := ne impl; nk := x; be := be impl; benk := benk impl;
    a := a impl; r := r impl; Be := Be impl; Re := Re impl; Rk := Rk impl;
    R := R impl
  |}.

Definition set_be (impl : Impl) (x : Vector) : Impl :=
  {|
    reactions := reactions impl; system := system impl;
    partition := partition impl; options := options impl;
    equilibrium := equilibrium impl; ode := ode impl;
    ispecies_e := ispecies_e impl; ispecies_k := ispecies_k impl;
    ielements_e := ielements_e impl; ielements_k := ielements_k impl;
    Ne := Ne impl; Nk := Nk impl; Ee := Ee impl; Ek := Ek impl;
    We := We impl; Se := Se impl; Sk := Sk impl; A := A impl; T := T impl;
    P := P impl; ne := ne impl; nk := nk impl; be := x; benk := benk impl;
    a := a impl; r := r impl; Be := Be impl; Re := Re impl; Rk := Rk impl;
    R := R impl
  |}.

Definition set_benk (impl : Impl) (x : Vector) : Impl :=
  {|
    reactions := reactions impl; system := system impl;
    partition := partition impl; options := options impl;
    equilibrium := equilibrium impl; ode := ode impl;
    ispecies_e := ispecies_e impl; ispecies_k := ispecies_k impl;
    ielements_e := ielements_e impl; ielements_k := ielements_k impl;
    Ne := Ne impl; Nk := Nk impl; Ee := Ee impl; Ek := Ek impl;
    We := We impl; Se := Se impl; Sk := Sk impl; A := A impl; T := T impl;
    P := P impl; ne := ne impl; nk := nk impl; be := be impl; benk := x;
    a := a impl; r := r impl; Be := Be impl; Re := Re impl; Rk := Rk impl;
    R := R impl
  |}.

Definition set_a (impl : Impl) (x : ChemicalVector) : Impl :=
  {|
    reactions := reactions impl; system := system impl;
    partition := partition impl; options := options impl;
    equilibrium := equilibrium impl; ode := ode impl;
    ispecies_e := ispecies_e impl; ispecies_k := ispecies_k impl;
    ielements_e := ielements_e impl; ielements_k := ielements_k impl;
    Ne := Ne impl; Nk := Nk impl; Ee := Ee impl; Ek := Ek impl;
    We := We impl; Se := Se impl; Sk := Sk impl; A := A impl; T := T impl;
    P := P impl; ne := ne impl; nk := nk impl; be := be impl;
    benk := benk impl; a := x; r := r impl; Be := Be impl; Re := Re impl;
    Rk := Rk impl; R := R impl
  |}.

Definition set_r (impl : Impl) (x : ChemicalVector) : Impl :=
  {|
    reactions := reactions impl; system := system impl;
    partition := partition impl; options := options impl;
    equilibrium := equilibrium impl; ode := ode impl;
    ispecies_e := ispecies_e impl; ispecies_k := ispecies_k impl;
    ielements_e := ielements_e impl; ielements_k := ielements_k impl;
    Ne := Ne impl; Nk := Nk impl; Ee := Ee impl; Ek := Ek impl;
    We := We impl; Se := Se impl; Sk := Sk impl; A := A impl; T := T impl;
    P := P impl; ne := ne impl; nk := nk impl; be := be impl;
    benk := benk impl; a := a impl; r := x; Be := Be impl; Re := Re impl;
    Rk := Rk impl; R := R impl
  |}.

Definition set_Be (impl : Impl) (x : Matrix) : Impl :=
  {|
    reactions := reactions impl; system := system impl;
    partition := partition impl; options := options impl;
    equilibrium := equilibrium impl; ode := ode impl;
    ispecies_e := ispecies_e impl; ispecies_k := ispecies_k impl;
    ielements_e := ielements_e impl; ielements_k := ielements_k impl;
    Ne := Ne impl; Nk := Nk impl; Ee := Ee impl; Ek := Ek impl;
    We := We impl; Se := Se impl; Sk := Sk impl; A := A impl; T := T impl;
    P := P impl; ne := ne impl; nk := nk impl; be := be impl;
    benk := benk impl; a := a impl; r := r impl; Be := x; Re := Re impl;
    Rk := Rk impl; R := R impl
  |}.

Definition set_Re (impl : Impl) (x : Matrix) : Impl :=
  {|
    reactions := reactions impl; system := system impl;
    partition := partition impl; options := options impl;
    equilibrium := equilibrium impl; ode := ode impl;
    ispecies_e := ispecies_e impl; ispecies_k := ispecies_k impl;
    ielements_e := ielements_e impl; ielements_k := ielements_k impl;
    Ne := Ne impl; Nk := Nk impl; Ee := Ee impl; Ek := Ek impl;
    We := We impl; Se := Se impl; Sk := Sk impl; A := A impl; T := T impl;
    P := P impl; ne := ne impl; nk := nk impl; be := be impl;
    benk := benk impl; a := a impl; r := r impl; Be := Be impl; Re := x;
    Rk := Rk impl; R := R impl
  |}.

Definition set_Rk (impl : Impl) (x : Matrix) : Impl :=
  {|
    reactions := reactions impl; system := system impl;
    partition := partition impl; options := options impl;
    equilibrium := equilibrium impl; ode := ode impl;
    ispecies_e := ispecies_e impl; ispecies_k := ispecies_k impl;
    ielements_e := ielements_e impl; ielements_k := ielements_k impl;
    Ne := Ne impl; Nk := Nk impl; Ee := Ee impl; Ek := Ek impl;
    We := We impl; Se := Se impl; Sk := Sk impl; A := A impl; T := T impl;
    P := P impl; ne := ne impl; nk := nk impl; be := be impl;
    benk := benk impl; a := a impl; r := r impl; Be := Be impl;
    Re := Re impl; Rk := x; R := R impl
  |}.

Definition set_R (impl : Impl) (x : Matrix) : Impl :=
  {|
    reactions := reactions impl; system := system impl;
    partition := partition impl; options := options impl;
    equilibrium := equilibrium impl; ode := ode impl;
    ispecies_e := ispecies_e impl; ispecies_k := ispecies_k impl;
    ielements_e := ielements_e impl; ielements_k := ielements_k impl;
    Ne := Ne impl; Nk := Nk impl; Ee := Ee impl; Ek := Ek impl;
    We := We impl; Se := Se impl; Sk := Sk impl; A := A impl; T := T impl;
    P := P impl; ne := ne impl; nk := nk impl; be := be impl;
    benk := benk impl; a := a impl; r := r impl; Be := Be impl;
    Re := Re impl; Rk := Rk impl; R := x
  |}.

End Members.

Arguments mkImpl {EQ ODE}.

(** *** The operations *)

Section Operations.

Variables EQ ODE : Type.

(** The environment the callbacks run on: the members and the chemical state
    the closures hold by reference. *)
Definition Env : Type := (Impl EQ ODE * ChemicalState)%type.

Variable equilibrium_ops : EquilibriumOps EQ.
Variable ode_ops : ODEOps ODE Env.

(** [setPartition(const Partition&)]. *)
Definition setPartition (impl : Impl EQ ODE) (partition_ : Partition)
    : Impl EQ ODE :=
  let equilibrium' :=
    equilibrium_setPartition equilibrium_ops (equilibrium impl) partition_ in
  let ispecies_e' := indicesEquilibriumSpecies partition_ in
  let ispecies_k' := indicesKineticSpecies partition_ in
  let ielements_e' := indicesEquilibriumElements partition_ in
  let ielements_k' := indicesKineticElements partition_ in
  let Ne' := length ispecies_e' in
  let Nk' := length ispecies_k' in
  let Ee' := length ielements_e' in
  let Ek' := length ielements_k' in
  let We' := formulaMatrixEquilibriumSpecies partition_ in
  let Se' := cols (stoichiometricMatrix (reactions impl)) ispecies_e' in
  let Sk' := cols (stoichiometricMatrix (reactions impl)) ispecies_k' in
  let A0 := resize (A impl) (Ee' + Nk') (numReactions (reactions impl)) in
  let A1 := set_topRows A0 Ee' (mat_mul We' (tr Se')) in
  let A2 := set_bottomRows A1 Nk' (tr Sk') in
  let R' := resize (R impl) (numReactions (reactions impl)) (Ee' + Nk') in
  mkImpl (reactions impl) (system impl) partition_ (options impl)
    equilibrium' (ode impl) ispecies_e' ispecies_k' ielements_e' ielements_k'
    Ne' Nk' Ee' Ek' We' Se' Sk' A2 (T impl) (P impl) (ne impl) (nk impl)
    (be impl) (benk impl) (a impl) (r impl) (Be impl) (Re impl) (Rk impl) R'.

(** The first loop of [function]: is some entry of [u] not finite? *)
Definition has_nonfinite (u : Vector) : bool :=
  existsb (fun x => negb (is_finite x)) u.

(** The threshold [1.0e-50] of the last loop of [function], the double
    nearest to it. *)
#[warnings="-inexact-float"]
Definition threshold : float := 1e-50%float.

(** The last loop of [function]: where [|u[i]| < 1.0e-50] and
    [res[i] < 0.0], [res[i]] becomes [0.0]. *)
Definition impose_lower_bound (u res : Vector) : Vector :=
  fold_left
    (fun res i =>
       if (abs (at_ u i) <? threshold)%float && (at_ res i <? 0)%float
       then set_at res i 0%float else res)
    (seq 0 (length u)) res.

(** The two assignments before it: the right-hand side as computed. *)
Definition computed_derivative (impl : Impl EQ ODE) (res : Vector) : Vector :=
  let res :=
    set_segment res 0 (Ee impl)
      (mat_vec (mat_mul (We impl) (tr (Se impl))) (val (r impl))) in
  set_segment res (Ee impl) (Nk impl) (mat_vec (tr (Sk impl)) (val (r impl))).

(** [function(state, t, u, res)]: the right-hand side of the ODE.  It gives
    back how the call ended with the code it returned, [res], the members
    and the chemical state. *)
Definition function (impl : Impl EQ ODE) (state : ChemicalState) (t : float)
    (u res : Vector) : completion Z * Vector * Impl EQ ODE * ChemicalState :=
  let impl := set_be impl (segment u 0 (Ee impl)) in
  let impl := set_nk impl (segment u (Ee impl) (Nk impl)) in
  if has_nonfinite u then (Normal 1%Z, res, impl, state) else
  let state := setSpeciesAmounts state (nk impl) (ispecies_k impl) in
  let '(done, equilibrium', state) :=
    equilibrium_solve equilibrium_ops (equilibrium impl) state (be impl) in
  let impl := set_equilibrium impl equilibrium' in
  match done with
  | Raised => (Raised, res, impl, state)
  | Normal _ =>
    let n := speciesAmounts state in
    let impl := set_a impl (activities (system impl) (T impl) (P impl) n) in
    let impl :=
      set_r impl (rates (reactions impl) (T impl) (P impl) n (a impl)) in
    let res := computed_derivative impl res in
    let res := impose_lower_bound u res in
    (Normal 0%Z, res, impl, state)
  end.

(** [jacobian(state, t, u, res)]: the Jacobian of the right-hand side.
    Eigen asserts that the shapes of [Re * Be] and of the blocks conform;
    the embedding reads the entries by position, and the theorems about it
    take conforming shapes as hypotheses. *)
Definition jacobian (impl : Impl EQ ODE) (state : ChemicalState) (t : float)
    (u : Vector) (res : Matrix)
    : completion Z * Matrix * Impl EQ ODE * ChemicalState :=
  let impl := set_be impl (segment u 0 (Ee impl)) in
  let impl := set_nk impl (segment u (Ee impl) (Nk impl)) in
  let state := setSpeciesAmounts state (nk impl) (ispecies_k impl) in
  let '(done, equilibrium', state) :=
    equilibrium_solve equilibrium_ops (equilibrium impl) state (be impl) in
  let impl := set_equilibrium impl equilibrium' in
  match done with
  | Raised => (Raised, res, impl, state)
  | Normal _ =>
    let impl :=
      set_Be impl (equilibrium_dndb equilibrium_ops (equilibrium impl) state) in
    let impl := set_Re impl (cols (ddn (r impl)) (ispecies_e impl)) in
    let impl := set_Rk impl (cols (ddn (r impl)) (ispecies_k impl)) in
    let impl :=
      set_R impl
        (set_leftCols (R impl) (Ee impl) (mat_mul (Re impl) (Be impl))) in
    let impl := set_R impl (set_rightCols (R impl) (Nk impl) (Rk impl)) in
    (Normal 0%Z, mat_mul (A impl) (R impl), impl, state)
  end.

(** The callbacks [ode_function] and [ode_jacobian] that [initialize] hands
    to the integrator: closures over the members and the state.  The
    closures hold, by reference, the state [initialize] was given; the
    embedding threads one chemical state, that is, the caller passes to
    [step] the object it passed to [initialize]. *)
Definition problem (impl : Impl EQ ODE) : ODEProblem Env :=
  mkODEProblem (Ee impl + Nk impl)
    (fun t u res (e : Env) =>
       let '(c, res, impl, state) := function (fst e) (snd e) t u res in
       (c, res, (impl, state)))
    (fun t u res (e : Env) =>
       let '(c, res, impl, state) := jacobian (fst e) (snd e) t u res in
       (c, res, (impl, state))).

(** [initialize(state, tstart)]. *)
Definition initialize (impl : Impl EQ ODE) (state : ChemicalState)
    (tstart : float) : Impl EQ ODE :=
  let impl := set_T impl (temperature state) in
  let impl := set_P impl (pressure state) in
  let n := speciesAmounts state in
  let impl := set_ne impl (rows n (ispecies_e impl)) in
  let impl := set_nk impl (rows n (ispecies_k impl)) in
  let impl := set_benk impl (resize_vec (benk impl) (Ee impl + Nk impl)) in
  let impl :=
    set_benk impl
      (set_segment (benk impl) 0 (Ee impl) (mat_vec (We impl) (ne impl))) in
  let impl :=
    set_benk impl (set_segment (benk impl) (Ee impl) (Nk impl) (nk impl)) in
  let impl :=
    set_ode impl
      (ode_setProblem ode_ops (ode impl) (numEquations (problem impl))) in
  set_ode impl (ode_initialize ode_ops (ode impl) tstart (benk impl)).

(** The last lines of [step] and of the two [solve]: [benk] is split into
    [be] and [nk], [nk] is written into the state and the equilibrium
    species are solved for [be]. *)
Definition update_state (impl : Impl EQ ODE) (state : ChemicalState)
    : completion unit * Impl EQ ODE * ChemicalState :=
  let impl := set_be impl (segment (benk impl) 0 (Ee impl)) in
  let impl := set_nk impl (segment (benk impl) (Ee impl) (Nk impl)) in
  let state := setSpeciesAmounts state (nk impl) (ispecies_k impl) in
  let '(done, equilibrium', state) :=
    equilibrium_solve equilibrium_ops (equilibrium impl) state (be impl) in
  (done, set_equilibrium impl equilibrium', state).

(** What the members and the state are after a call of the integrator. *)
Definition after_integration (i : Integration ODE Env) : Impl EQ ODE :=
  set_benk (set_ode (fst (env i)) (solver i)) (solution i).

(** [step(state, t, tfinal)]; the new [t] comes back with the rest. *)
Definition step_until (impl : Impl EQ ODE) (state : ChemicalState)
    (t tfinal : float)
    : completion unit * float * Impl EQ ODE * ChemicalState :=
  let n := speciesAmounts state in
  let impl := set_ne impl (rows n (ispecies_e impl)) in
  let impl := set_nk impl (rows n (ispecies_k impl)) in
  let impl :=
    set_benk impl
      (set_segment (benk impl) 0 (Ee impl) (mat_vec (We impl) (ne impl))) in
  let impl :=
    set_benk impl (set_segment (benk impl) (Ee impl) (Nk impl) (nk impl)) in
  let i :=
    ode_integrate ode_ops (problem impl) (ode impl) t (benk impl) tfinal
      (impl, state) in
  let impl := after_integration i in
  let state := snd (env i) in
  if completed i then
    let '(done, impl, state) := update_state impl state in
    (done, time i, impl, state)
  else (Raised, time i, impl, state).

(** [unsigned(-1)]: the conversion of an [int] to a 32-bit [unsigned]. *)
Definition unsigned (z : Z) : Z := (z mod 2 ^ 32)%Z.

(** The conversion of an [unsigned] to a [double], exact below [2^53]. *)
Definition to_double (z : Z) : float := of_uint63 (Uint63.of_Z z).

(** [step(state, t)]. *)
Definition step (impl : Impl EQ ODE) (state : ChemicalState) (t : float)
    : completion unit * float * Impl EQ ODE * ChemicalState :=
  let tfinal := to_double (unsigned (-1)) in
  step_until impl state t tfinal.


(** The loop of [solveWithOutput]: [while(t < tfinal)] one internal step,
    then the output of the state, which only reads it.  [None] when [fuel]
    steps were not enough. *)
Fixpoint integrate_until (fuel : nat) (impl : Impl EQ ODE)
    (state : ChemicalState) (t tfinal : float)
    : option (bool * float * Impl EQ ODE * ChemicalState) :=
  if (t <? tfinal)%float then
    match fuel with
    | O => None
    | S fuel' =>
      let i :=
        ode_integrate ode_ops (problem impl) (ode impl) t (benk impl) tfinal
          (impl, state) in
      let impl := after_integration i in
      let state := snd (env i) in
      if completed i then integrate_until fuel' impl state (time i) tfinal
      else Some (false, time i, impl, state)
    end
  else Some (true, t, impl, state).

(** [solveWithOutput(state, t, dt)], the printing left out. *)
Definition solveWithOutput (fuel : nat) (impl : Impl EQ ODE)
    (state : ChemicalState) (t dt : float)
    : option (completion unit * Impl EQ ODE * ChemicalState) :=
  let impl := initialize impl state t in
  let tfinal := (t + dt)%float in
  match integrate_until fuel impl state t tfinal with
  | None => None
  | Some (true, _, impl, state) => Some (update_state impl state)
  | Some (false, _, impl, state) => Some (Raised, impl, state)
  end.


(** The members that [setPartition] sets are in [i] what they are in [j];
    of [R], which [jacobian] fills, the dimensions. *)
Definition same_partition (i j : Impl EQ ODE) : Prop :=
  reactions i = reactions j /\
  ispecies_e i = ispecies_e j /\ ispecies_k i = ispecies_k j /\
  Ee i = Ee j /\ Nk i = Nk j /\
  We i = We j /\ Se i = Se j /\ Sk i = Sk j /\ A i = A j /\
  mrows (R i) = mrows (R j) /\ mcols (R i) = mcols (R j).

(** The environments an integrator reaches from [e0] by calling the
    callbacks of [prob]. *)
Inductive reached (prob : ODEProblem Env) (e0 : Env) : Env -> Prop :=
| reached_start : reached prob e0 e0
| reached_function (e : Env) (t : float) (u res : Vector) (c : completion Z)
    (res' : Vector) (e' : Env) :
    reached prob e0 e ->
    ode_function prob t u res e = (c, res', e') ->
    reached prob e0 e'
| reached_jacobian (e : Env) (t : float) (u : Vector) (res : Matrix)
    (c : completion Z) (res' : Matrix) (e' : Env) :
    reached prob e0 e ->
    ode_jacobian prob t u res e = (c, res', e') ->
    reached prob e0 e'.

(** The integrator changes the members and the chemical state through the
    callbacks only. *)
Definition callback_driven : Prop :=
  forall (prob : ODEProblem Env) (o : ODE) (t : float) (u : Vector)
         (e : Env),
    (forall tfinal,
        reached prob e (env (ode_integrate ode_ops prob o t u tfinal e))) /\
    (forall dt,
        reached prob e (env (ode_solve ode_ops prob o t dt u e))).

(** The members after [initialize(state0, tstart)] and any calls that
    follow it, [initialize] apart. *)
Inductive initialized (state0 : ChemicalState) : Impl EQ ODE -> Prop :=
| after_initialize (impl : Impl EQ ODE) (tstart : float) :
    initialized state0 (initialize impl state0 tstart)
| after_setPartition (impl : Impl EQ ODE) (p : Partition) :
    initialized state0 impl ->
    initialized state0 (setPartition impl p)
| after_function (impl : Impl EQ ODE) (state : ChemicalState) (t : float)
    (u res : Vector) (c : completion Z) (res' : Vector)
    (impl' : Impl EQ ODE) (state' : ChemicalState) :
    initialized state0 impl ->
    function impl state t u res = (c, res', impl', state') ->
    initialized state0 impl'
| after_jacobian (impl : Impl EQ ODE) (state : ChemicalState) (t : float)
    (u : Vector) (res : Matrix) (c : completion Z) (res' : Matrix)
    (impl' : Impl EQ ODE) (state' : ChemicalState) :
    initialized state0 impl ->
    jacobian impl state t u res = (c, res', impl', state') ->
    initialized state0 impl'
| after_step (impl : Impl EQ ODE) (state : ChemicalState) (t tfinal : float)
    (c : completion unit) (t' : float) (impl' : Impl EQ ODE)
    (state' : ChemicalState) :
    initialized state0 impl ->
    step_until impl state t tfinal = (c, t', impl', state') ->
    initialized state0 impl'.

(** A weak form of consistency, enough to state what a failing call
    breaks: [be] and [nk] are the two segments of [benk], and the state is
    one the equilibrium solver returned for [be] from some state that had
    [nk] written into its kinetic species. *)
Definition consistent (impl : Impl EQ ODE) (state : ChemicalState) : Prop :=
  be impl = segment (benk impl) 0 (Ee impl) /\
  nk impl = segment (benk impl) (Ee impl) (Nk impl) /\
  exists (equilibrium0 : EQ) (state1 : ChemicalState) (x : unit),
    equilibrium_solve equilibrium_ops equilibrium0
      (setSpeciesAmounts state1 (nk impl) (ispecies_k impl)) (be impl)
    = (Normal x, equilibrium impl, state).

(** The members as [step] hands them to the integrator: [ne], [nk] and
    [benk] read from the state. *)
Definition assembled (impl : Impl EQ ODE) (state : ChemicalState)
    : Impl EQ ODE :=
  let n := speciesAmounts state in
  let impl := set_ne impl (rows n (ispecies_e impl)) in
  let impl := set_nk impl (rows n (ispecies_k impl)) in
  let impl :=
    set_benk impl
      (set_segment (benk impl) 0 (Ee impl) (mat_vec (We impl) (ne impl))) in
  set_benk impl (set_segment (benk impl) (Ee impl) (Nk impl) (nk impl)).

(** The call of the integrator that [step] makes, and the one
    [solveWithoutOutput] makes. *)
Definition step_integration (impl : Impl EQ ODE) (state : ChemicalState)
    (t tfinal : float) : Integration ODE Env :=
  let impl := assembled impl state in
  ode_integrate ode_ops (problem impl) (ode impl) t (benk impl) tfinal
    (impl, state).


(** What the last lines of [step] and [solve] did with the members [mid]
    and the state [state_mid] the integration left: [be] and [nk] are the
    two segments of the integrated [benk], [nk] was written into
    [state_mid], and the equilibrium solver, called on that state for [be],
    ended as [c] and left the state [state']. *)
Definition written_back (mid : Impl EQ ODE) (state_mid : ChemicalState)
    (c : completion unit) (impl' : Impl EQ ODE) (state' : ChemicalState)
    : Prop :=
  benk impl' = benk mid /\
  be impl' = segment (benk mid) 0 (Ee mid) /\
  nk impl' = segment (benk mid) (Ee mid) (Nk mid) /\
  equilibrium_solve equilibrium_ops (equilibrium mid)
    (setSpeciesAmounts state_mid (nk impl') (ispecies_k mid)) (be impl')
  = (c, equilibrium impl', state').

(** Every evaluation of the right-hand side that an integrator can make
    from [e0], on a buffer of [numEquations] entries, and that returns [0],
    gives the zero vector. *)
Definition rhs_zero (prob : ODEProblem Env) (e0 : Env) : Prop :=
  forall e, reached prob e0 e ->
  forall t u res res' e',
    length res = numEquations prob ->
    ode_function prob t u res e = (Normal 0%Z, res', e') ->
    res' = repeat 0%float (numEquations prob).

End Operations.
End KineticPath.

(** ** A system to run the path on

    The smallest system the path accepts: one element, an equilibrium
    species (index 0) that holds all of it and a kinetic species (index 1),
    and one reaction with the stoichiometry [se], [sk] and the rate
    [k * n_K]. *)

Module TwoSpecies.
Import Dense KineticPath.

Definition empty_matrix : Matrix := of_rows 0 0 [].

Definition chemical_system : ChemicalSystem :=
  mkChemicalSystem
    (fun _ _ n => mkChemicalVector n (of_rows 2 2 [[1; 0]; [0; 1]]%float)).

Definition reaction_system (se sk k : float) : ReactionSystem :=
  mkReactionSystem chemical_system 1 (of_rows 1 2 [[se; sk]])
    (fun _ _ n _ =>
       mkChemicalVector [(k * at_ n 1)%float] (of_rows 1 2 [[0; k]]%float)).

Definition the_partition : Partition :=
  mkPartition [0] [1] [0] [0] (of_rows 1 1 [[1]]%float).

(** The equilibrium species takes the whole abundance of the element; a
    negative abundance has no equilibrium and the solver throws, the state
    untouched. *)
Definition equilibrium_ops : EquilibriumOps unit :=
  mkEquilibriumOps
    (fun e _ => e)
    (fun e state b =>
       if existsb (fun x => (x <? 0)%float) b then (Raised, e, state)
       else (Normal tt, e, setSpeciesAmounts state b [0]))
    (fun _ _ => of_rows 1 1 [[1]]%float).

(** One step of the explicit Euler method, of size [h] at most and never
    beyond [tfinal]; a failure of the right-hand side ends the call. *)
Definition euler (h : float) (Env : Type) (prob : ODEProblem Env) (o : unit)
    (t : float) (u : Vector) (tfinal : float) (e : Env)
    : Integration unit Env :=
  let t' := if (t + h <=? tfinal)%float then (t + h)%float else tfinal in
  let '(c, res, e') :=
    ode_function prob t u (resize_vec [] (numEquations prob)) e in
  match c with
  | Normal 0%Z =>
    mkIntegration true t'
      (map (fun i => (at_ u i + (t' - t) * at_ res i)%float)
           (seq 0 (length u)))
      o e'
  | _ => mkIntegration false t u o e'
  end.

Definition ode_ops (h : float) (Env : Type) : ODEOps unit Env :=
  mkODEOps
    (fun o _ => o)
    (fun o _ _ => o)
    (euler h (Env := Env))
    (fun prob o t dt u e => euler dt prob o t u (t + dt)%float e).

Definition no_vector : ChemicalVector := mkChemicalVector [] empty_matrix.

(** The members before any partition is set. *)
Definition blank (se sk k : float) : Impl unit unit :=
  mkImpl (reaction_system se sk k) chemical_system
    (mkPartition [] [] [] [] empty_matrix) (mkKineticOptions false) tt tt
    [] [] [] [] 0 0 0 0 empty_matrix empty_matrix empty_matrix empty_matrix
    0%float 0%float [] [] [] [] no_vector no_vector
    empty_matrix empty_matrix empty_matrix empty_matrix.

(** The path of the system, its partition set. *)
Definition path (se sk k : float) : Impl unit unit :=
  setPartition equilibrium_ops (blank se sk k) the_partition.

(** A state at 300 K and 1 bar with the given amounts. *)
Definition state_of (n : Vector) : ChemicalState :=
  mkChemicalState 300%float 100000%float n.

(** Three systems: in [uptake] the kinetic species grows out of the
    equilibrium species at the rate [2 * n_K]; in [decay] it decays into it
    at the rate [n_K]; in [idle] the rate is zero. *)
Definition uptake : Impl unit unit := path (-1) 1 2.
Definition decay : Impl unit unit := path 1 (-1) 1.
Definition idle : Impl unit unit := path 1 (-1) 0.

(** The Euler method with steps of one second. *)
Definition integrator : ODEOps unit (Env unit unit) :=
  ode_ops 1 (Env unit unit).

(** [uptake] after [initialize] on one mole of each species, at [t = 0]. *)
Definition started : Impl unit unit :=
  initialize equilibrium_ops integrator uptake (state_of [1; 1]%float)
    0%float.

(** [uptake] after one evaluation of the right-hand side. *)
Definition evaluated : Impl unit unit :=
  snd (fst (function equilibrium_ops uptake (state_of [1; 1]%float) 0%float
              [1; 1]%float [0; 0]%float)).

(** [decay] after [initialize] on one mole of each species, at [t = 0]. *)
Definition started_decay : Impl unit unit :=
  initialize equilibrium_ops integrator decay (state_of [1; 1]%float)
    0%float.

(** A system whose reaction has the rate zero whatever the composition,
    and its path after [initialize]. *)
Definition still_reactions : ReactionSystem :=
  mkReactionSystem chemical_system 1 (of_rows 1 2 [[1; (-1)]]%float)
    (fun _ _ _ _ =>
       mkChemicalVector [0%float] (of_rows 1 2 [[0; 0]]%float)).

Definition still_blank : Impl unit unit :=
  mkImpl still_reactions chemical_system
    (mkPartition [] [] [] [] empty_matrix) (mkKineticOptions false) tt tt
    [] [] [] [] 0 0 0 0 empty_matrix empty_matrix empty_matrix empty_matrix
    0%float 0%float [] [] [] [] no_vector no_vector
    empty_matrix empty_matrix empty_matrix empty_matrix.

Definition still : Impl unit unit :=
  initialize equilibrium_ops integrator
    (setPartition equilibrium_ops still_blank the_partition)
    (state_of [1; 1]%float) 0%float.

(** A system whose formula matrix and stoichiometry hold the entry
    [2^700], so that their product is beyond the doubles; its rate is
    [0 * n_K]. *)
Definition huge_partition : Partition :=
  mkPartition [0] [1] [0] [0] (of_rows 1 1 [[0x1p700]]%float).

Definition huge : Impl unit unit :=
  setPartition equilibrium_ops (blank 0x1p700 (-1) 0) huge_partition.

End TwoSpecies.

(** ** The output of the chemical state, [ChemicalOutput]

    [ChemicalOutput::Impl] writes a header line and then a line per state to
    the terminal and to a data file.  The two streams are the texts written
    so far; whether the file can be opened, how a [double] prints and what a
    quantity is worth are the business of the system and of
    [ChemicalQuantity], and are parameters. *)

Module ChemicalOutput.
Import String.
Local Open Scope string_scope.

(** What has been written: to [std::cout], and to the file of the stream
    [datafile]. *)
Record Streams := mkStreams {
  cout : string;
  file : string
}.

Section Output.

(** [ChemicalQuantity], with [update(state, t)] and [value(word)]. *)
Variable Quantity : Type.
Variable quantity_update :
  Quantity -> KineticPath.ChemicalState -> float -> Quantity.
Variable quantity_value : Quantity -> string -> float.

(** Whether [std::ofstream::open] succeeds on a file name, and the text
    [operator<<] writes for a [double]. *)
Variable can_open : string -> bool.
Variable show : float -> string.

(** The members the functions use; [datafile] is whether the stream is
    open. *)
Record Impl := mkImpl {
  quantity : Quantity;
  terminal : bool;
  filename : string;
  data : list string;
  header : list string;
  datafile : bool
}.

(** [std::string::empty] and [std::vector::empty]. *)
Definition empty (s : string) : bool :=
  match s with EmptyString => true | String _ _ => false end.

Definition no_words (l : list string) : bool :=
  match l with [] => true | _ :: _ => false end.

(** [std::endl], the end of a line. *)
Definition endl : string := String (Ascii.ascii_of_nat 10) EmptyString.

Fixpoint spaces (n : nat) : string :=
  match n with
  | O => EmptyString
  | S n' => String Ascii.Space (spaces n')
  end.

(** [std::left << std::setw(w) << s]: [s], filled with spaces on the right
    up to [w] characters. *)
Definition setw_left (w : nat) (s : string) : string :=
  s ++ spaces (w - length s).

(** The pair of statements [if(datafile.is_open()) datafile << s;
    if(terminal) std::cout << s;]. *)
Definition write (impl : Impl) (out : Streams) (s : string) : Streams :=
  let out :=
    if datafile impl then mkStreams (cout out) (file out ++ s) else out in
  if terminal impl then mkStreams (cout out ++ s) (file out) else out.

(** [close()]. *)
Definition close (impl : Impl) : Impl :=
  mkImpl (quantity impl) (terminal impl) (filename impl) (data impl)
    (header impl) false.

(** [open()]: [Assert] throws when neither a file nor the terminal was
    asked for; opening a file empties it. *)
Definition open (impl : Impl) (out : Streams)
    : KineticPath.completion unit * Impl * Streams :=
  let impl := close impl in
  if negb (negb (empty (filename impl)) || terminal impl)
  then (KineticPath.Raised, impl, out)
  else
    let header' :=
      if no_words (header impl) then data impl else header impl in
    let opened :=
      if negb (empty (filename impl)) then can_open (filename impl)
      else datafile impl in
    let out :=
      if negb (empty (filename impl)) && opened
      then mkStreams (cout out) EmptyString else out in
    let impl :=
      mkImpl (quantity impl) (terminal impl) (filename impl) (data impl)
        header' opened in
    let out :=
      fold_left (fun out word => write impl out (setw_left 20 word))
        (header impl) out in
    (KineticPath.Normal tt, impl, write impl out endl).

(** [update(state, t)]. *)
Definition update (impl : Impl) (out : Streams)
    (state : KineticPath.ChemicalState) (t : float) : Impl * Streams :=
  let impl :=
    mkImpl (quantity_update (quantity impl) state t) (terminal impl)
      (filename impl) (data impl) (header impl) (datafile impl) in
  let out :=
    fold_left
      (fun out word =>
         let val := quantity_value (quantity impl) word in
         write impl out (setw_left 20 (show val)))
      (data impl) out in
  (impl, write impl out endl).

(** [ChemicalOutput::operator bool]. *)
Definition to_bool (impl : Impl) : bool :=
  terminal impl || negb (Nat.eqb (length (filename impl)) 0).

(** The line of words, each in its column of twenty characters, that the
    loops of [open] and [update] write. *)
Definition line (words : list string) : string :=
  fold_right (fun word rest => setw_left 20 word ++ rest) endl words.

End Output.

End ChemicalOutput.

(** ** An output to run [ChemicalOutput] on *)

Module OutputSample.
Import String.
Local Open Scope string_scope.

(** Every quantity is worth one and a half, which prints as [1.5]; every
    file can be opened. *)
Definition value (q : unit) (word : string) : float := 1.5%float.
Definition renew (q : unit) (state : KineticPath.ChemicalState) (t : float)
    : unit := q.
Definition print (x : float) : string := "1.5".
Definition writable (name : string) : bool := true.

(** An output of the time and of the pH, to the terminal and to a file, and
    one that was not configured. *)
Definition both : ChemicalOutput.Impl unit :=
  ChemicalOutput.mkImpl tt true "out.txt" ["t"; "pH"] [] false.

Definition unset : ChemicalOutput.Impl unit :=
  ChemicalOutput.mkImpl tt false "" ["t"; "pH"] [] false.

Definition blank_streams : ChemicalOutput.Streams :=
  ChemicalOutput.mkStreams "" "old".

End OutputSample.

(** ** The interpolation of thermodynamic functions, [interpolate]

    The three overloads of [interpolate] build bilinear interpolators over a
    grid of temperatures and pressures.  [BilinearInterpolator] and the
    constructors [ThermoScalar::Temperature] and [ThermoScalar::Pressure]
    are not among the sources and are parameters. *)

Module Interpolation.

(** A [ThermoScalar]: a value and its derivatives in temperature and
    pressure. *)
Record ThermoScalar := mkThermoScalar {
  val : float;
  ddt : float;
  ddp : float
}.

Definition ThermoScalarFunction : Type :=
  ThermoScalar -> ThermoScalar -> ThermoScalar.

Definition ThermoVectorFunction : Type :=
  ThermoScalar -> ThermoScalar -> list ThermoScalar.

Section Interpolate.

Variable BilinearInterpolator : Type.

(** The interpolator of the values at the points of the grid, the one of a
    function of the two coordinates, and its evaluation. *)
Variable of_data :
  list float -> list float -> list float -> BilinearInterpolator.
Variable of_function :
  list float -> list float -> (float -> float -> float) ->
  BilinearInterpolator.
Variable at_point :
  BilinearInterpolator -> ThermoScalar -> ThermoScalar -> float.

Variable Temperature : float -> ThermoScalar.
Variable Pressure : float -> ThermoScalar.

(** The helper [eval] of the second and third overloads. *)
Definition eval (Tval Pval : float) (func : ThermoScalarFunction)
    : ThermoScalar :=
  func (Temperature Tval) (Pressure Pval).

(** [interpolate(temperatures, pressures, scalars)]. *)
Definition interpolate_scalars (temperatures pressures : list float)
    (scalars : list ThermoScalar) : ThermoScalarFunction :=
  let vals := map val scalars in
  let ddts := map ddt scalars in
  let ddps := map ddp scalars in
  let val' := of_data temperatures pressures vals in
  let ddt' := of_data temperatures pressures ddts in
  let ddp' := of_data temperatures pressures ddps in
  fun T P => mkThermoScalar (at_point val' T P) (at_point ddt' T P)
               (at_point ddp' T P).

(** [interpolate(temperatures, pressures, f)]. *)
Definition interpolate_function (temperatures pressures : list float)
    (f : ThermoScalarFunction) : ThermoScalarFunction :=
  let val_func := fun T P => val (eval T P f) in
  let ddt_func := fun T P => ddt (eval T P f) in
  let ddp_func := fun T P => ddp (eval T P f) in
  let val' := of_function temperatures pressures val_func in
  let ddt' := of_function temperatures pressures ddt_func in
  let ddp' := of_function temperatures pressures ddp_func in
  fun T P => mkThermoScalar (at_point val' T P) (at_point ddt' T P)
               (at_point ddp' T P).

(** [interpolate(temperatures, pressures, fs)]: the first loop fills three
    vectors of [fs.size()] interpolators, the second one evaluates them
    index by index. *)
Definition interpolate_functions (temperatures pressures : list float)
    (fs : list ThermoScalarFunction) : ThermoVectorFunction :=
  let size := length fs in
  let f_at := fun i => nth i fs (fun _ _ => mkThermoScalar 0 0 0) in
  let val' :=
    map (fun i => of_function temperatures pressures
                    (fun T P => val (eval T P (f_at i)))) (seq 0 size) in
  let ddt' :=
    map (fun i => of_function temperatures pressures
                    (fun T P => ddt (eval T P (f_at i)))) (seq 0 size) in
  let ddp' :=
    map (fun i => of_function temperatures pressures
                    (fun T P => ddp (eval T P (f_at i)))) (seq 0 size) in
  let none := of_data [] [] [] in
  fun T P =>
    map (fun i => mkThermoScalar (at_point (nth i val' none) T P)
                    (at_point (nth i ddt' none) T P)
                    (at_point (nth i ddp' none) T P))
        (seq 0 size).

End Interpolate.

End Interpolation.

(** ** The concentrations of an aqueous phase, [AqueousPhase::concentrations]

    The molar mass of water and the index of the water species come from
    [WaterConstants] and from the mixture, and are parameters.  [n.sum()]
    adds from the left, starting at [0]. *)

Module AqueousPhase.
Import Dense.

Section Concentrations.

Variable waterMolarMass : float.
Variable indexWater : nat.

(** [n.sum()]. *)
Definition sum (n : Vector) : float :=
  fold_left (fun acc x => (acc + x)%float) n 0%float.

(** [zeros(k)]. *)
Definition zeros (k : nat) : Vector := repeat 0%float k.

(** [concentrations(n)]: the molalities of the species, and for water its
    molar fraction. *)
Definition concentrations (n : Vector) : Vector :=
  let ntotal := sum n in
  if (ntotal =? 0)%float then zeros (length n) else
  let iH2O := indexWater in
  let massH2O := (at_ n iH2O * waterMolarMass)%float in
  let c := map (fun x => (x / massH2O)%float) n in
  set_at c iH2O (at_ n iH2O / ntotal)%float.

End Concentrations.

End AqueousPhase.

(** ** Inputs to run [interpolate] and [concentrations] on *)

Module Samples.
Import Interpolation.

(** An interpolator that is the function it was built from, and the
    constant zero when it was built from data. *)
Definition exact_of_data (xs ys zs : list float) : float -> float -> float :=
  fun _ _ => 0%float.

Definition exact_of_function (xs ys : list float)
    (f : float -> float -> float) : float -> float -> float := f.

Definition exact_at (b : float -> float -> float) (T P : ThermoScalar)
    : float :=
  b (val T) (val P).

Definition temperature_of (x : float) : ThermoScalar :=
  mkThermoScalar x 1 0.

Definition pressure_of (x : float) : ThermoScalar :=
  mkThermoScalar x 0 1.

(** Two functions of the temperature and the pressure. *)
Definition sum_of : ThermoScalarFunction :=
  fun T P => mkThermoScalar (val T + val P) 1 1.

Definition product_of : ThermoScalarFunction :=
  fun T P => mkThermoScalar (val T * val P) (val P) (val T).

(** The molar mass of water, in kg/mol. *)
#[warnings="-inexact-float"]
Definition water_molar_mass : float := 0.018015268%float.

End Samples.

(** ** Facts about vectors and matrices *)

Module DenseFacts.
Import Dense.

Lemma nth_map_seq (X : Type) (f : nat -> X) (n i : nat) (d : X) :
  i < n -> nth i (map f (seq 0 n)) d = f i.
Proof.
  intros Hi.
  rewrite (nth_indep _ d (f 0)) by (rewrite length_map, length_seq; exact Hi).
  rewrite map_nth, seq_nth by exact Hi. reflexivity.
Qed.

Lemma vector_ext (v w : Vector) :
  length v = length w ->
  (forall i, i < length v -> at_ v i = at_ w i) -> v = w.
Proof.
  intros Hlen Hat. apply (nth_ext v w 0%float 0%float Hlen). exact Hat.
Qed.

Lemma sum_to_ext (n : nat) (f g : nat -> float) :
  (forall k, k < n -> f k = g k) -> sum_to n f = sum_to n g.
Proof.
  intros Hfg. unfold sum_to.
  assert (Hin : forall k, In k (seq 0 n) -> f k = g k).
  { intros k Hk. apply in_seq in Hk. apply Hfg. lia. }
  clear Hfg. revert Hin. generalize 0%float as acc. generalize (seq 0 n) as l.
  induction l as [|k l IH]; intros acc Hin; simpl.
  - reflexivity.
  - rewrite (Hin k) by (left; reflexivity).
    apply IH. intros k' Hk'. apply Hin. right. exact Hk'.
Qed.

Lemma length_mat_vec (M : Matrix) (v : Vector) :
  length (mat_vec M v) = mrows M.
Proof. unfold mat_vec. rewrite length_map, length_seq. reflexivity. Qed.

Lemma at_mat_vec (M : Matrix) (v : Vector) (i : nat) :
  i < mrows M ->
  at_ (mat_vec M v) i
  = sum_to (mcols M) (fun k => (coeff M i k * at_ v k)%float).
Proof. intros Hi. unfold at_ at 1, mat_vec. apply nth_map_seq. exact Hi. Qed.

Lemma length_set_segment (v : Vector) (start n : nat) (w : Vector) :
  length (set_segment v start n w) = length v.
Proof. unfold set_segment. rewrite length_map, length_seq. reflexivity. Qed.

Lemma at_set_segment (v : Vector) (start n : nat) (w : Vector) (i : nat) :
  i < length v ->
  at_ (set_segment v start n w) i
  = if (start <=? i) && (i <? start + n) then at_ w (i - start) else at_ v i.
Proof.
  intros Hi. unfold at_ at 1, set_segment.
  rewrite nth_map_seq by exact Hi. reflexivity.
Qed.

Lemma length_set_at (v : Vector) (i : nat) (x : float) :
  length (set_at v i x) = length v.
Proof.
  revert i. induction v as [|y v IH]; intros [|i]; simpl; auto.
Qed.

Lemma at_set_at (v : Vector) (j : nat) (x : float) (i : nat) :
  at_ (set_at v j x) i
  = if (i =? j) && (i <? length v) then x else at_ v i.
Proof.
  unfold at_. revert j i. induction v as [|y v IH]; intros j i.
  - simpl. rewrite andb_false_r. reflexivity.
  - destruct j as [|j], i as [|i]; simpl; try reflexivity.
    rewrite IH. reflexivity.
Qed.

(** A product reads its right factor inside its dimensions only. *)
Lemma mat_mul_same_right (M N N' : Matrix) :
  mcols M = mrows N -> same_matrix N N' ->
  same_matrix (mat_mul M N) (mat_mul M N').
Proof.
  intros Hin (Hr & Hc & Hco). repeat split; simpl; try assumption.
  intros i j _ Hj. apply sum_to_ext. intros k Hk.
  rewrite Hco by lia. reflexivity.
Qed.

End DenseFacts.

(** ** Facts about doubles *)

Module FloatFacts.
Import Dense DenseFacts.

(** A finite double is a zero or a finite number of the specification. *)
Lemma is_finite_cases (x : float) :
  is_finite x = true ->
  (exists s, Prim2SF x = S754_zero s) \/
  (exists s m e, Prim2SF x = S754_finite s m e).
Proof.
  unfold is_finite, is_nan, is_infinity.
  rewrite !FloatAxioms.eqb_spec, abs_spec.
  destruct (Prim2SF x) as [s|s| |s m e]; intros H.
  - left. exists s. reflexivity.
  - destruct s; discriminate H.
  - discriminate H.
  - right. exists s, m, e. reflexivity.
Qed.

Lemma is_zero_cases (z : float) :
  is_zero z = true -> exists s, Prim2SF z = S754_zero s.
Proof.
  unfold is_zero. rewrite FloatAxioms.eqb_spec.
  destruct (Prim2SF z) as [s|s| |s m e]; intros H.
  - exists s. reflexivity.
  - destruct s; discriminate H.
  - discriminate H.
  - destruct s; discriminate H.
Qed.

Lemma is_zero_of_spec (z : float) (s : bool) :
  Prim2SF z = S754_zero s -> is_zero z = true.
Proof.
  intros H. unfold is_zero. rewrite FloatAxioms.eqb_spec, H.
  destruct s; reflexivity.
Qed.

(** A finite double times a zero is a zero. *)
Lemma finite_mul_zero (x z : float) :
  is_finite x = true -> is_zero z = true -> is_zero (x * z) = true.
Proof.
  intros Hx Hz. destruct (is_zero_cases Hz) as (sz & Ez).
  destruct (@is_finite_cases x Hx) as [(s & Ex)|(s & m & e & Ex)].
  - apply (@is_zero_of_spec _ (xorb s sz)). rewrite mul_spec, Ex, Ez.
    reflexivity.
  - apply (@is_zero_of_spec _ (xorb s sz)). rewrite mul_spec, Ex, Ez.
    reflexivity.
Qed.

(** [0.0] plus a zero of either sign is [0.0]. *)
Lemma zero_add_zero (z : float) : is_zero z = true -> (0 + z = 0)%float.
Proof.
  intros Hz. destruct (is_zero_cases Hz) as (sz & Ez).
  apply Prim2SF_inj. rewrite add_spec, Ez.
  destruct sz; reflexivity.
Qed.

(** A sum of zeros is [0.0]. *)
Lemma sum_to_zeros (n : nat) (f : nat -> float) :
  (forall k, k < n -> is_zero (f k) = true) -> sum_to n f = 0%float.
Proof.
  intros Hf. unfold sum_to.
  assert (Hin : forall k, In k (seq 0 n) -> is_zero (f k) = true).
  { intros k Hk. apply in_seq in Hk. apply Hf. lia. }
  clear Hf. revert Hin. generalize (seq 0 n) as l.
  induction l as [|k l IH]; intros Hin; simpl.
  - reflexivity.
  - rewrite zero_add_zero by (apply Hin; left; reflexivity).
    apply IH. intros k' Hk'. apply Hin. right. exact Hk'.
Qed.

(** An entry of a vector of zeros is a zero, also outside the vector. *)
Lemma at_zeros (v : Vector) (k : nat) :
  Forall (fun x => is_zero x = true) v -> is_zero (at_ v k) = true.
Proof.
  intros Hv. unfold at_. destruct (Nat.lt_ge_cases k (length v)) as [Hlt|Hge].
  - rewrite Forall_forall in Hv. apply Hv. apply nth_In. exact Hlt.
  - rewrite nth_overflow by exact Hge. reflexivity.
Qed.

(** A matrix of finite entries times a vector of zeros is the vector of
    [0.0]. *)
Lemma mat_vec_zeros (M : Matrix) (v : Vector) :
  (forall i k, i < mrows M -> k < mcols M -> is_finite (coeff M i k) = true) ->
  Forall (fun x => is_zero x = true) v ->
  mat_vec M v = repeat 0%float (mrows M).
Proof.
  intros HM Hv. apply vector_ext.
  - rewrite length_mat_vec, repeat_length. reflexivity.
  - intros i Hi. rewrite length_mat_vec in Hi.
    rewrite at_mat_vec by exact Hi.
    unfold at_ at 2. rewrite nth_repeat.
    apply sum_to_zeros. intros k Hk.
    apply finite_mul_zero; [apply HM; assumption | apply at_zeros; exact Hv].
Qed.

End FloatFacts.

(** ** Facts about the kinetic path *)

Module KineticPathFacts.
Import Dense DenseFacts FloatFacts KineticPath.

Section Facts.

Variables EQ ODE : Type.
Variable equilibrium_ops : EquilibriumOps EQ.

Local Abbreviation Impl := (Impl EQ ODE).

(** *** The coefficient matrix *)

Lemma setPartition_top (impl : Impl) (p : Partition) (i k : nat) :
  let impl' := setPartition equilibrium_ops impl p in
  i < Ee impl' ->
  coeff (A impl') i k = coeff (mat_mul (We impl') (tr (Se impl'))) i k.
Proof.
  intros impl'. subst impl'. unfold setPartition.
  cbn -[Nat.ltb Nat.leb Nat.sub Nat.add sum_to]. intros Hi.
  replace (_ + _ - _ <=? i) with false by (symmetry; apply Nat.leb_gt; lia).
  apply Nat.ltb_lt in Hi. rewrite Hi. reflexivity.
Qed.

Lemma setPartition_bottom (impl : Impl) (p : Partition) (i k : nat) :
  let impl' := setPartition equilibrium_ops impl p in
  Ee impl' <= i ->
  coeff (A impl') i k = coeff (tr (Sk impl')) (i - Ee impl') k.
Proof.
  intros impl'. subst impl'. unfold setPartition.
  cbn -[Nat.ltb Nat.leb Nat.sub Nat.add sum_to]. intros Hi.
  rewrite Nat.add_sub.
  apply Nat.leb_le in Hi. rewrite Hi. reflexivity.
Qed.

(** The two segments [function] assigns are the product of the assembled
    matrix and the rates. *)
Lemma computed_derivative_assembled (impl0 impl : Impl) (p : Partition)
    (res : Vector) :
  same_partition impl (setPartition equilibrium_ops impl0 p) ->
  mrows (formulaMatrixEquilibriumSpecies p)
  = length (indicesEquilibriumElements p) ->
  mrows (stoichiometricMatrix (reactions impl0))
  = numReactions (reactions impl0) ->
  length res = Ee impl + Nk impl ->
  computed_derivative impl res = mat_vec (A impl) (val (r impl)).
Proof.
  intros (Hre & Hie & Hik & HEe & HNk & HWe & HSe & HSk & HA & _) HW HS Hlen.
  unfold computed_derivative.
  rewrite HEe, HNk in Hlen. rewrite HEe, HNk, HWe, HSe, HSk, HA.
  generalize (val (r impl)) as v. intros v.
  set (impl1 := setPartition equilibrium_ops impl0 p) in *.
  assert (HrowsW : mrows (mat_mul (We impl1) (tr (Se impl1))) = Ee impl1)
    by exact HW.
  assert (HrowsS : mrows (tr (Sk impl1)) = Nk impl1) by reflexivity.
  assert (HcolsW : mcols (mat_mul (We impl1) (tr (Se impl1))) = mcols (A impl1))
    by exact HS.
  assert (HcolsS : mcols (tr (Sk impl1)) = mcols (A impl1)) by exact HS.
  assert (HrowsA : mrows (A impl1) = Ee impl1 + Nk impl1) by reflexivity.
  apply vector_ext.
  - rewrite !length_set_segment, length_mat_vec, Hlen, HrowsA. reflexivity.
  - intros i Hi. rewrite !length_set_segment in Hi.
    rewrite at_set_segment by (rewrite length_set_segment; exact Hi).
    rewrite (at_mat_vec (A impl1)) by lia.
    destruct (Nat.lt_ge_cases i (Ee impl1)) as [Hlt|Hge].
    + replace (Ee impl1 <=? i) with false by (symmetry; apply Nat.leb_gt; lia).
      cbn [andb]. rewrite at_set_segment by exact Hi.
      replace ((0 <=? i) && (i <? 0 + Ee impl1)) with true
        by (symmetry; apply andb_true_iff; split;
            [apply Nat.leb_le | apply Nat.ltb_lt]; lia).
      rewrite Nat.sub_0_r, at_mat_vec by lia.
      rewrite HcolsW. apply sum_to_ext. intros k _.
      f_equal. symmetry. exact (setPartition_top impl0 p k Hlt).
    + replace ((Ee impl1 <=? i) && (i <? Ee impl1 + Nk impl1)) with true
        by (symmetry; apply andb_true_iff; split;
            [apply Nat.leb_le | apply Nat.ltb_lt]; lia).
      rewrite at_mat_vec by lia.
      rewrite HcolsS. apply sum_to_ext. intros k _.
      f_equal. symmetry. exact (setPartition_bottom impl0 p k Hge).
Qed.

(** *** The right-hand side *)

Lemma same_partition_refl (impl : Impl) : same_partition impl impl.
Proof. repeat split. Qed.

Lemma same_partition_trans (i j k : Impl) :
  same_partition i j -> same_partition j k -> same_partition i k.
Proof.
  unfold same_partition. intros Hij Hjk.
  repeat match goal with H : _ /\ _ |- _ => destruct H end.
  repeat split; congruence.
Qed.

(** [function] on a finite [u], when the equilibrium solver returns. *)
Lemma function_returns (impl : Impl) (state : ChemicalState) (t : float)
    (u res : Vector) (x : unit) (equilibrium' : EQ) (state' : ChemicalState) :
  has_nonfinite u = false ->
  equilibrium_solve equilibrium_ops (equilibrium impl)
    (setSpeciesAmounts state (segment u (Ee impl) (Nk impl)) (ispecies_k impl))
    (segment u 0 (Ee impl))
  = (Normal x, equilibrium', state') ->
  exists impl',
    function equilibrium_ops impl state t u res
    = (Normal 0%Z, impose_lower_bound u (computed_derivative impl' res),
       impl', state') /\
    a impl'
    = activities (system impl) (T impl) (P impl) (speciesAmounts state') /\
    r impl'
    = rates (reactions impl) (T impl) (P impl) (speciesAmounts state')
        (a impl') /\
    T impl' = T impl /\ P impl' = P impl /\ same_partition impl' impl.
Proof.
  intros Hfin Hsolve. unfold function. rewrite Hfin.
  cbn [set_be set_nk nk be ispecies_k equilibrium Ee Nk].
  rewrite Hsolve.
  eexists. split; [reflexivity|].
  repeat split.
Qed.

(** [function] returned on a finite [u]: what it returned. *)
Lemma function_inv (impl : Impl) (state : ChemicalState) (t : float)
    (u res : Vector) (c : Z) (res' : Vector) (impl' : Impl)
    (state' : ChemicalState) :
  function equilibrium_ops impl state t u res = (Normal c, res', impl', state') ->
  has_nonfinite u = false ->
  c = 0%Z /\
  res' = impose_lower_bound u (computed_derivative impl' res) /\
  a impl'
  = activities (system impl) (T impl) (P impl) (speciesAmounts state') /\
  r impl'
  = rates (reactions impl) (T impl) (P impl) (speciesAmounts state')
      (a impl') /\
  T impl' = T impl /\ P impl' = P impl /\ same_partition impl' impl.
Proof.
  intros Hrun Hfin. unfold function in Hrun. rewrite Hfin in Hrun.
  cbn [set_be set_nk nk be ispecies_k equilibrium Ee Nk] in Hrun.
  destruct (equilibrium_solve _ _ _ _) as [[[x|] equilibrium'] state1];
    [|discriminate].
  injection Hrun as <- <- <- <-. repeat split.
Qed.

(** The first loop finds an entry that is not finite when there is one. *)
Lemma has_nonfinite_at (u : Vector) (i : nat) :
  i < length u -> is_finite (at_ u i) = false -> has_nonfinite u = true.
Proof.
  intros Hi Hnf. unfold has_nonfinite. apply existsb_exists.
  exists (at_ u i). split.
  - apply nth_In. exact Hi.
  - rewrite Hnf. reflexivity.
Qed.

(** C2: on a [u] with an entry that is not finite, [function] returns (it
    does not throw) a code other than [0], here [1], and the chemical state
    is the one it was given. *)
Theorem function_rejects_nonfinite (impl : Impl) (state : ChemicalState)
    (t : float) (u res : Vector) (i : nat) :
  i < length u ->
  is_finite (at_ u i) = false ->
  exists (code : Z) (impl' : Impl),
    function equilibrium_ops impl state t u res
    = (Normal code, res, impl', state) /\
    code <> 0%Z.
Proof.
  intros Hi Hnf. unfold function.
  rewrite (has_nonfinite_at u Hi Hnf).
  exists 1%Z. eexists. split; [reflexivity | discriminate].
Qed.

(** *** The floor *)

Lemma length_impose_lower_bound (u res : Vector) :
  length (impose_lower_bound u res) = length res.
Proof.
  unfold impose_lower_bound. generalize (seq 0 (length u)) as l.
  intros l. revert res. induction l as [|j l IH]; intros res; simpl.
  - reflexivity.
  - rewrite IH. destruct (_ && _); [apply length_set_at | reflexivity].
Qed.

(** What the last loop leaves at [i], over any list of indices. *)
Lemma lower_bound_loop_at (u : Vector) (l : list nat) (res : Vector)
    (i : nat) :
  at_
    (fold_left
       (fun res i =>
          if (abs (at_ u i) <? threshold)%float && (at_ res i <? 0)%float
          then set_at res i 0%float else res) l res) i
  = if existsb (Nat.eqb i) l
       && ((abs (at_ u i) <? threshold)%float && (at_ res i <? 0)%float)
    then 0%float else at_ res i.
Proof.
  revert res. induction l as [|j l IH]; intros res; simpl.
  - reflexivity.
  - rewrite IH. clear IH.
    destruct (Nat.eqb_spec i j) as [<-|Hne]; simpl.
    + destruct ((abs (at_ u i) <? threshold)%float) eqn:Hu; simpl.
      * destruct ((at_ res i <? 0)%float) eqn:Hr; simpl.
        -- rewrite at_set_at, Nat.eqb_refl. simpl.
           destruct (Nat.ltb_spec i (length res)) as [Hlt|Hge].
           ++ rewrite andb_false_r. reflexivity.
           ++ unfold at_ in Hr. rewrite nth_overflow in Hr by exact Hge.
              discriminate Hr.
        -- rewrite Hr, !andb_false_r. reflexivity.
      * rewrite andb_false_r. reflexivity.
    + assert (Hsame :
        at_ (if (abs (at_ u j) <? threshold)%float && (at_ res j <? 0)%float
             then set_at res j 0%float else res) i = at_ res i).
      { destruct (_ && _); [|reflexivity].
        rewrite at_set_at.
        destruct (Nat.eqb_spec i j); [contradiction | reflexivity]. }
      rewrite Hsame. reflexivity.
Qed.

Lemma existsb_eqb_seq (i n : nat) :
  existsb (Nat.eqb i) (seq 0 n) = (i <? n).
Proof.
  destruct (Nat.ltb_spec i n) as [Hlt|Hge].
  - apply existsb_exists. exists i. split.
    + apply in_seq. lia.
    + apply Nat.eqb_refl.
  - destruct (existsb _ _) eqn:Hex; [|reflexivity].
    apply existsb_exists in Hex. destruct Hex as (k & Hk & Heq).
    apply in_seq in Hk. apply Nat.eqb_eq in Heq. lia.
Qed.

(** What the floor leaves at [i]. *)
Lemma impose_lower_bound_at (u res : Vector) (i : nat) :
  at_ (impose_lower_bound u res) i
  = if (i <? length u)
       && ((abs (at_ u i) <? threshold)%float && (at_ res i <? 0)%float)
    then 0%float else at_ res i.
Proof.
  unfold impose_lower_bound.
  rewrite lower_bound_loop_at, existsb_eqb_seq. reflexivity.
Qed.

(** C4: on a finite [u], at every index [i] of [u] where [|u[i]|] is below
    the threshold [1.0e-50] and the derivative as computed is negative,
    [function] returns exactly [0] for that derivative. *)
Theorem floor_clamps_to_zero (impl : Impl) (state : ChemicalState)
    (t : float) (u res : Vector) (c : Z) (res' : Vector) (impl' : Impl)
    (state' : ChemicalState) (i : nat) :
  function equilibrium_ops impl state t u res = (Normal c, res', impl', state') ->
  has_nonfinite u = false ->
  i < length u ->
  (abs (at_ u i) <? threshold)%float = true ->
  (at_ (computed_derivative impl' res) i <? 0)%float = true ->
  at_ res' i = 0%float.
Proof.
  intros Hrun Hfin Hi Hu Hneg.
  destruct (function_inv _ _ _ _ _ Hrun Hfin) as (_ & -> & _).
  rewrite impose_lower_bound_at, Hu, Hneg.
  apply Nat.ltb_lt in Hi. rewrite Hi. reflexivity.
Qed.

(** The floor leaves a vector of [0.0] as it is. *)
Lemma impose_lower_bound_zeros (u : Vector) (n : nat) :
  impose_lower_bound u (repeat 0%float n) = repeat 0%float n.
Proof.
  apply vector_ext.
  - apply length_impose_lower_bound.
  - intros i _. rewrite impose_lower_bound_at.
    unfold at_. rewrite !nth_repeat.
    destruct (_ && _); reflexivity.
Qed.

(** C1: on a finite [u] for which the equilibrium solver returns, [function]
    returns [0] and, before the floor of its last loop, the derivative
    [A * r.val], where [r] holds the rates at the composition the solver
    left and [A] is the matrix [setPartition] assembled: [Ee + Nk] rows,
    [numReactions] columns, [We * tr(Se)] in its top [Ee] rows and [tr(Sk)]
    in its bottom [Nk] rows. *)
Theorem function_computes_A_r (impl0 impl : Impl) (p : Partition)
    (state : ChemicalState) (t : float) (u res : Vector) (x : unit)
    (equilibrium' : EQ) (state' : ChemicalState) :
  same_partition impl (setPartition equilibrium_ops impl0 p) ->
  mrows (formulaMatrixEquilibriumSpecies p)
  = length (indicesEquilibriumElements p) ->
  mrows (stoichiometricMatrix (reactions impl0))
  = numReactions (reactions impl0) ->
  length res = Ee impl + Nk impl ->
  has_nonfinite u = false ->
  equilibrium_solve equilibrium_ops (equilibrium impl)
    (setSpeciesAmounts state (segment u (Ee impl) (Nk impl)) (ispecies_k impl))
    (segment u 0 (Ee impl))
  = (Normal x, equilibrium', state') ->
  let n := speciesAmounts state' in
  let r' :=
    rates (reactions impl) (T impl) (P impl) n
      (activities (system impl) (T impl) (P impl) n) in
  (exists impl',
     function equilibrium_ops impl state t u res
     = (Normal 0%Z, impose_lower_bound u (mat_vec (A impl) (val r')),
        impl', state') /\
     r impl' = r' /\
     computed_derivative impl' res = mat_vec (A impl) (val r')) /\
  mrows (A impl) = Ee impl + Nk impl /\
  mcols (A impl) = numReactions (reactions impl) /\
  same_matrix (topRows (A impl) (Ee impl)) (mat_mul (We impl) (tr (Se impl))) /\
  same_matrix (bottomRows (A impl) (Nk impl)) (tr (Sk impl)).
Proof.
  intros Hsame HW HS Hlen Hfin Hsolve n r'.
  destruct (function_returns impl state t u res Hfin Hsolve)
    as (impl' & Hrun & Ha & Hr & _ & _ & Hsame').
  assert (Hder : computed_derivative impl' res = mat_vec (A impl) (val r')).
  { assert (HA : A impl' = A impl) by apply Hsame'.
    assert (HEe : Ee impl' = Ee impl) by apply Hsame'.
    assert (HNk : Nk impl' = Nk impl) by apply Hsame'.
    rewrite <- HA. subst r' n. rewrite <- Ha, <- Hr.
    apply (computed_derivative_assembled (impl0 := impl0) (p := p)).
    - exact (same_partition_trans Hsame' Hsame).
    - exact HW.
    - exact HS.
    - rewrite HEe, HNk. exact Hlen. }
  split.
  { exists impl'. rewrite Hrun, Hder. split; [reflexivity|].
    split; [|reflexivity]. rewrite Hr, Ha. reflexivity. }
  destruct Hsame as (Hre & Hie & Hik & HEe & HNk & HWe & HSe & HSk & HA & _).
  rewrite HA, HEe, HNk, HWe, HSe, HSk, Hre.
  split; [reflexivity|]. split; [reflexivity|]. split.
  - split; [symmetry; exact HW|]. split; [symmetry; exact HS|].
    intros i k Hi _. exact (setPartition_top impl0 p k Hi).
  - split; [reflexivity|]. split; [symmetry; exact HS|].
    intros i k _ _. cbn [bottomRows coeff].
    rewrite (setPartition_bottom impl0 p k (i := _ - _ + i)).
    + f_equal. cbn [mrows A setPartition set_bottomRows set_topRows resize Ee Nk].
      lia.
    + cbn [mrows A setPartition set_bottomRows set_topRows resize Ee Nk]. lia.
Qed.

(** When the rates [r.val] that [function] evaluated are all zero and the
    entries of the assembled matrix are finite numbers, the derivative it
    returns is the zero vector. *)
Lemma function_zero_rates (impl0 impl : Impl) (p : Partition)
    (state : ChemicalState) (t : float) (u res : Vector) (c : Z)
    (res' : Vector) (impl' : Impl) (state' : ChemicalState) :
  same_partition impl (setPartition equilibrium_ops impl0 p) ->
  mrows (formulaMatrixEquilibriumSpecies p)
  = length (indicesEquilibriumElements p) ->
  mrows (stoichiometricMatrix (reactions impl0))
  = numReactions (reactions impl0) ->
  length res = Ee impl + Nk impl ->
  (forall i k, i < mrows (A impl) -> k < mcols (A impl) ->
     is_finite (coeff (A impl) i k) = true) ->
  has_nonfinite u = false ->
  function equilibrium_ops impl state t u res = (Normal c, res', impl', state') ->
  Forall (fun x => is_zero x = true) (val (r impl')) ->
  c = 0%Z /\ res' = repeat 0%float (Ee impl + Nk impl).
Proof.
  intros Hsame HW HS Hlen HA Hfin Hrun Hzero.
  destruct (function_inv _ _ _ _ _ Hrun Hfin)
    as (-> & -> & _ & _ & _ & _ & Hsame').
  split; [reflexivity|].
  assert (HA' : A impl' = A impl) by apply Hsame'.
  assert (HEe : Ee impl' = Ee impl) by apply Hsame'.
  assert (HNk : Nk impl' = Nk impl) by apply Hsame'.
  rewrite (@computed_derivative_assembled impl0 impl' p res
             (same_partition_trans Hsame' Hsame) HW HS)
    by (rewrite HEe, HNk; exact Hlen).
  rewrite HA', (mat_vec_zeros _ HA Hzero).
  assert (Hrows : mrows (A impl) = Ee impl + Nk impl).
  { destruct Hsame as (_ & _ & _ & HEe0 & HNk0 & _ & _ & _ & HA0 & _).
    rewrite HA0, HEe0, HNk0. reflexivity. }
  rewrite Hrows. apply impose_lower_bound_zeros.
Qed.

(** *** The Jacobian *)

(** [jacobian], when the equilibrium solver returns. *)
Lemma jacobian_returns (impl : Impl) (state : ChemicalState) (t : float)
    (u : Vector) (res : Matrix) (x : unit) (equilibrium' : EQ)
    (state' : ChemicalState) :
  equilibrium_solve equilibrium_ops (equilibrium impl)
    (setSpeciesAmounts state (segment u (Ee impl) (Nk impl)) (ispecies_k impl))
    (segment u 0 (Ee impl))
  = (Normal x, equilibrium', state') ->
  exists impl',
    jacobian equilibrium_ops impl state t u res
    = (Normal 0%Z, mat_mul (A impl) (R impl'), impl', state') /\
    Be impl' = equilibrium_dndb equilibrium_ops equilibrium' state' /\
    Re impl' = cols (ddn (r impl)) (ispecies_e impl) /\
    Rk impl' = cols (ddn (r impl)) (ispecies_k impl) /\
    R impl'
    = set_rightCols
        (set_leftCols (R impl) (Ee impl) (mat_mul (Re impl') (Be impl')))
        (Nk impl) (Rk impl') /\
    T impl' = T impl /\ P impl' = P impl /\ same_partition impl' impl.
Proof.
  intros Hsolve. unfold jacobian.
  cbn [set_be set_nk nk be ispecies_k equilibrium Ee Nk].
  rewrite Hsolve.
  eexists. split; [reflexivity|].
  repeat split.
Qed.

(** C5: when the equilibrium solver returns, [jacobian] returns [0] and the
    product [A * R], where [R] is [[Re * Be | Rk]], [Ee + Nk] wide: [Be] is
    what the solver's [dndb] gives, [Re] and [Rk] are the columns of the
    rate Jacobian [r.ddn] at the equilibrium and at the kinetic species. *)
Theorem jacobian_computes_A_R (impl0 impl : Impl) (p : Partition)
    (state : ChemicalState) (t : float) (u : Vector) (res : Matrix)
    (x : unit) (equilibrium' : EQ) (state' : ChemicalState) :
  same_partition impl (setPartition equilibrium_ops impl0 p) ->
  mrows (ddn (r impl)) = numReactions (reactions impl) ->
  mcols (equilibrium_dndb equilibrium_ops equilibrium' state') = Ee impl ->
  equilibrium_solve equilibrium_ops (equilibrium impl)
    (setSpeciesAmounts state (segment u (Ee impl) (Nk impl)) (ispecies_k impl))
    (segment u 0 (Ee impl))
  = (Normal x, equilibrium', state') ->
  let Be' := equilibrium_dndb equilibrium_ops equilibrium' state' in
  let Re' := cols (ddn (r impl)) (ispecies_e impl) in
  let Rk' := cols (ddn (r impl)) (ispecies_k impl) in
  exists impl',
    jacobian equilibrium_ops impl state t u res
    = (Normal 0%Z, mat_mul (A impl) (R impl'), impl', state') /\
    Be impl' = Be' /\ Re impl' = Re' /\ Rk impl' = Rk' /\
    same_matrix (R impl') (hcat (mat_mul Re' Be') Rk') /\
    mcols (R impl') = Ee impl + Nk impl /\
    same_matrix (mat_mul (A impl) (R impl'))
                (mat_mul (A impl) (hcat (mat_mul Re' Be') Rk')).
Proof.
  intros Hsame Hddn Hdndb Hsolve. cbv zeta.
  set (Be' := equilibrium_dndb equilibrium_ops equilibrium' state') in *.
  set (Re' := cols (ddn (r impl)) (ispecies_e impl)).
  set (Rk' := cols (ddn (r impl)) (ispecies_k impl)).
  destruct (jacobian_returns impl state t u res Hsolve)
    as (impl' & Hrun & HBe & HRe & HRk & HR & _).
  destruct Hsame as (Hre & _ & Hik & HEe & HNk & _ & _ & _ & HA & HRr & HRc).
  cbn [setPartition R resize mrows mcols Ee Nk ispecies_k reactions A] in *.
  assert (HNk' : Nk impl = length (ispecies_k impl)) by congruence.
  assert (Hsame_R : same_matrix (R impl') (hcat (mat_mul Re' Be') Rk')).
  { rewrite HR, HBe, HRe, HRk. fold Be' Re' Rk'.
    assert (HcolsX : mcols (mat_mul Re' Be') = Ee impl) by exact Hdndb.
    assert (HcolsY : mcols Rk' = Nk impl) by (symmetry; exact HNk').
    assert (HrowsX : mrows (mat_mul Re' Be') = mrows (R impl))
      by (cbn; rewrite HRr, Hddn, Hre; reflexivity).
    split; [|split].
    - symmetry. exact HrowsX.
    - cbn [mcols set_rightCols set_leftCols hcat].
      rewrite HcolsX, HcolsY, HRc, HEe, HNk. reflexivity.
    - intros i j _ Hj.
      cbn [coeff mcols set_rightCols set_leftCols hcat].
      rewrite HcolsX, HRc, <- HEe, <- HNk, Nat.add_sub.
      destruct (Nat.leb_spec (Ee impl) j) as [Hge|Hlt].
      + replace (j <? Ee impl) with false
          by (symmetry; apply Nat.ltb_ge; exact Hge).
        reflexivity.
      + replace (j <? Ee impl) with true
          by (symmetry; apply Nat.ltb_lt; exact Hlt).
        reflexivity. }
  exists impl'. split; [exact Hrun|].
  split; [exact HBe|]. split; [exact HRe|]. split; [exact HRk|].
  split; [exact Hsame_R|]. split.
  - rewrite HR. cbn. rewrite HRc, HEe, HNk. reflexivity.
  - apply mat_mul_same_right; [|exact Hsame_R].
    rewrite HA, HR. cbn. rewrite HRr. reflexivity.
Qed.

(** *** What the calls keep *)

Lemma function_keeps (impl : Impl) (state : ChemicalState) (t : float)
    (u res : Vector) (c : completion Z) (res' : Vector) (impl' : Impl)
    (state' : ChemicalState) :
  function equilibrium_ops impl state t u res = (c, res', impl', state') ->
  T impl' = T impl /\ P impl' = P impl /\ same_partition impl' impl.
Proof.
  unfold function. destruct (has_nonfinite u).
  - intros H. injection H as <- <- <- <-. repeat split.
  - destruct (equilibrium_solve _ _ _ _) as [[[x|] equilibrium'] state1];
      intros H; injection H as <- <- <- <-; repeat split.
Qed.

Lemma jacobian_keeps (impl : Impl) (state : ChemicalState) (t : float)
    (u : Vector) (res : Matrix) (c : completion Z) (res' : Matrix)
    (impl' : Impl) (state' : ChemicalState) :
  jacobian equilibrium_ops impl state t u res = (c, res', impl', state') ->
  T impl' = T impl /\ P impl' = P impl /\ same_partition impl' impl.
Proof.
  unfold jacobian.
  destruct (equilibrium_solve _ _ _ _) as [[[x|] equilibrium'] state1];
    intros H; injection H as <- <- <- <-; repeat split.
Qed.

Lemma reached_keeps (impl0 : Impl) (e0 e : Env EQ ODE) :
  reached (problem equilibrium_ops impl0) e0 e ->
  T (fst e) = T (fst e0) /\ P (fst e) = P (fst e0) /\
  same_partition (fst e) (fst e0).
Proof.
  induction 1 as [|e t u res c res' e' _ IH Hcall|e t u res c res' e' _ IH Hcall].
  - repeat split.
  - cbn [problem ode_function] in Hcall.
    destruct (function _ _ _ _ _ _) as [[[c1 res1] impl1] state1] eqn:Hrun.
    injection Hcall as <- <- <-.
    destruct (function_keeps _ _ _ _ _ Hrun) as (HT & HP & Hs).
    destruct IH as (HT0 & HP0 & Hs0). cbn [fst].
    split; [congruence|]. split; [congruence|].
    exact (same_partition_trans Hs Hs0).
  - cbn [problem ode_jacobian] in Hcall.
    destruct (jacobian _ _ _ _ _ _) as [[[c1 res1] impl1] state1] eqn:Hrun.
    injection Hcall as <- <- <-.
    destruct (jacobian_keeps _ _ _ _ _ Hrun) as (HT & HP & Hs).
    destruct IH as (HT0 & HP0 & Hs0). cbn [fst].
    split; [congruence|]. split; [congruence|].
    exact (same_partition_trans Hs Hs0).
Qed.

(** The last lines of [step] and [solve]: when they return, the state is
    consistent with [benk]. *)
Lemma update_state_inv (impl : Impl) (state : ChemicalState)
    (c : completion unit) (impl' : Impl) (state' : ChemicalState) :
  update_state equilibrium_ops impl state = (c, impl', state') ->
  T impl' = T impl /\ P impl' = P impl /\ benk impl' = benk impl /\
  (forall x, c = Normal x -> consistent equilibrium_ops impl' state').
Proof.
  unfold update_state.
  cbn [set_be set_nk nk be ispecies_k equilibrium Ee Nk].
  destruct (equilibrium_solve _ _ _ _) as [[c1 equilibrium'] state1] eqn:Hsolve.
  intros H. injection H as <- <- <-.
  split; [reflexivity|]. split; [reflexivity|]. split; [reflexivity|].
  intros x ->. unfold consistent.
  split; [reflexivity|]. split; [reflexivity|].
  exists (equilibrium impl), state, x. exact Hsolve.
Qed.

Variable ode_ops : ODEOps ODE (Env EQ ODE).

Lemma step_until_keeps (impl : Impl) (state : ChemicalState)
    (t tfinal : float) (c : completion unit) (t' : float) (impl' : Impl)
    (state' : ChemicalState) :
  callback_driven ode_ops ->
  step_until equilibrium_ops ode_ops impl state t tfinal
  = (c, t', impl', state') ->
  T impl' = T impl /\ P impl' = P impl.
Proof.
  intros Hcb. unfold step_until.
  match goal with
  | |- context [ode_integrate ode_ops ?prob ?o ?t0 ?u0 ?tf ?e0] =>
      pose proof (proj1 (Hcb prob o t0 u0 e0) tf) as Hreach;
      set (i := ode_integrate ode_ops prob o t0 u0 tf e0) in *
  end.
  apply reached_keeps in Hreach. destruct Hreach as (HT & HP & _).
  cbn [fst] in HT, HP.
  destruct (completed i).
  - destruct (update_state _ _ _) as [[c1 impl1] state1] eqn:Hupd.
    intros H. injection H as <- <- <- <-.
    destruct (update_state_inv _ _ Hupd) as (HT1 & HP1 & _).
    rewrite HT1, HP1. unfold after_integration.
    split; [exact HT | exact HP].
  - intros H. injection H as <- <- <- <-. unfold after_integration.
    split; [exact HT | exact HP].
Qed.

(** After [initialize(state0, tstart)] the members [T] and [P] hold the
    temperature and the pressure of [state0], whatever is called next. *)
Lemma initialized_T_P (state0 : ChemicalState) (impl : Impl) :
  callback_driven ode_ops ->
  initialized equilibrium_ops ode_ops state0 impl ->
  T impl = temperature state0 /\ P impl = pressure state0.
Proof.
  intros Hcb. induction 1 as
    [impl tstart
    |impl p _ IH
    |impl state t u res c res' impl' state' _ IH Hrun
    |impl state t u res c res' impl' state' _ IH Hrun
    |impl state t tfinal c t' impl' state' _ IH Hrun].
  - split; reflexivity.
  - exact IH.
  - destruct (function_keeps _ _ _ _ _ Hrun) as (HT & HP & _).
    rewrite HT, HP. exact IH.
  - destruct (jacobian_keeps _ _ _ _ _ Hrun) as (HT & HP & _).
    rewrite HT, HP. exact IH.
  - destruct (step_until_keeps _ _ _ _ Hcb Hrun) as (HT & HP).
    rewrite HT, HP. exact IH.
Qed.

(** C10: after [initialize(state0, tstart)], every evaluation of the
    right-hand side computes the activities and the rates at the temperature
    and the pressure of [state0], whatever temperature and pressure the state
    it is given has: only [initialize] sets them again. *)
Theorem rates_at_initial_T_P (state0 : ChemicalState) (impl : Impl)
    (state : ChemicalState) (t : float) (u res : Vector) (c : Z)
    (res' : Vector) (impl' : Impl) (state' : ChemicalState) :
  callback_driven ode_ops ->
  initialized equilibrium_ops ode_ops state0 impl ->
  has_nonfinite u = false ->
  function equilibrium_ops impl state t u res = (Normal c, res', impl', state') ->
  a impl'
  = activities (system impl) (temperature state0) (pressure state0)
      (speciesAmounts state') /\
  r impl'
  = rates (reactions impl) (temperature state0) (pressure state0)
      (speciesAmounts state') (a impl') /\
  T impl' = temperature state0 /\ P impl' = pressure state0.
Proof.
  intros Hcb Hinit Hfin Hrun.
  destruct (initialized_T_P Hcb Hinit) as (HT & HP).
  destruct (function_inv _ _ _ _ _ Hrun Hfin)
    as (_ & _ & Ha & Hr & HT' & HP' & _).
  rewrite Ha, Hr, HT', HP', Ha, HT, HP. repeat split.
Qed.

End Facts.

End KineticPathFacts.

(** ** The path on the two-species system *)

Module Runs.
Import Dense DenseFacts KineticPath KineticPathFacts TwoSpecies.

(** The Euler method reaches the environment by one call of the right-hand
    side. *)
Lemma euler_callback_driven (h : float) :
  callback_driven (ode_ops h (Env unit unit)).
Proof.
  intros prob o t u e. split.
  - intros tfinal. cbn [ode_ops ode_integrate]. unfold euler.
    destruct (ode_function prob t u _ e) as [[c res] e'] eqn:Hcall.
    assert (Hreach : reached prob e e')
      by (eapply reached_function; [apply reached_start | exact Hcall]).
    destruct c as [[| |]|]; exact Hreach.
  - intros dt. cbn [ode_ops ode_solve]. unfold euler.
    destruct (ode_function prob t u _ e) as [[c res] e'] eqn:Hcall.
    assert (Hreach : reached prob e e')
      by (eapply reached_function; [apply reached_start | exact Hcall]).
    destruct c as [[| |]|]; exact Hreach.
Qed.

(** [function_computes_A_r] on [uptake], one mole of each species. *)
Lemma function_computes_A_r_witness :
  exists impl',
    function equilibrium_ops uptake (state_of [1; 1]%float) 0%float
      [1; 1]%float [0; 0]%float
    = (Normal 0%Z, [(-2); 2]%float, impl', state_of [1; 1]%float) /\
    entries (A uptake) = [[(-1)%float]; [1%float]].
Proof.
  destruct (@function_computes_A_r unit unit equilibrium_ops
              (blank (-1) 1 2) uptake the_partition (state_of [1; 1]%float)
              0%float [1; 1]%float [0; 0]%float tt tt (state_of [1; 1]%float)
              (same_partition_refl uptake) eq_refl eq_refl eq_refl eq_refl
              eq_refl)
    as ((impl' & Hrun & _) & _).
  exists impl'. split; [exact Hrun | reflexivity].
Defined.

(** [function_rejects_nonfinite] on [uptake], the kinetic amount a NaN. *)
Lemma function_rejects_nonfinite_witness :
  exists (code : Z) (impl' : Impl unit unit),
    function equilibrium_ops uptake (state_of [1; 1]%float) 0%float
      [1; nan]%float [0; 0]%float
    = (Normal code, [0; 0]%float, impl', state_of [1; 1]%float) /\
    code <> 0%Z.
Proof.
  apply (@function_rejects_nonfinite unit unit equilibrium_ops uptake
           (state_of [1; 1]%float) 0%float [1; nan]%float [0; 0]%float 1).
  - simpl. lia.
  - reflexivity.
Defined.

(** [floor_clamps_to_zero] on [decay]: the kinetic species is down to
    [2^-200] moles and its derivative is negative. *)
Lemma floor_clamps_to_zero_witness :
  at_
    (snd (fst (fst (function equilibrium_ops decay (state_of [1; 1]%float)
                      0%float [1; 0x1p-200]%float [0; 0]%float))))
    1
  = 0%float.
Proof.
  set (F := function equilibrium_ops decay (state_of [1; 1]%float) 0%float
              [1; 0x1p-200]%float [0; 0]%float).
  apply (@floor_clamps_to_zero unit unit equilibrium_ops decay
           (state_of [1; 1]%float) 0%float [1; 0x1p-200]%float [0; 0]%float
           0%Z (snd (fst (fst F))) (snd (fst F)) (snd F) 1).
  - vm_compute; reflexivity.
  - vm_compute; reflexivity.
  - simpl. lia.
  - vm_compute; reflexivity.
  - vm_compute; reflexivity.
Defined.

(** [jacobian_computes_A_R] on [uptake] after one evaluation of the
    right-hand side. *)
Lemma jacobian_computes_A_R_witness :
  exists impl',
    jacobian equilibrium_ops evaluated (state_of [1; 1]%float) 0%float
      [1; 1]%float empty_matrix
    = (Normal 0%Z, mat_mul (A evaluated) (R impl'), impl',
       state_of [1; 1]%float) /\
    mcols (R impl') = 2.
Proof.
  destruct (@jacobian_computes_A_R unit unit equilibrium_ops
              (blank (-1) 1 2) evaluated the_partition
              (state_of [1; 1]%float) 0%float [1; 1]%float empty_matrix tt tt
              (state_of [1; 1]%float))
    as (impl' & Hrun & _ & _ & _ & _ & Hcols & _).
  - unfold same_partition;
      repeat (split; [vm_compute; reflexivity|]); vm_compute; reflexivity.
  - vm_compute; reflexivity.
  - vm_compute; reflexivity.
  - vm_compute; reflexivity.
  - exists impl'. split; [exact Hrun | exact Hcols].
Defined.

(** [rates_at_initial_T_P] on [started], which was initialised at 300 K and
    1 bar: on a state at 350 K and 2 bar the activities are still those at
    300 K and 1 bar. *)
Lemma rates_at_initial_T_P_witness :
  T (snd (fst (function equilibrium_ops started
                 (mkChemicalState 350 200000 [1; 1])%float 0%float
                 [1; 1]%float [0; 0]%float)))
  = 300%float.
Proof.
  set (F := function equilibrium_ops started
              (mkChemicalState 350 200000 [1; 1])%float 0%float
              [1; 1]%float [0; 0]%float).
  apply (@rates_at_initial_T_P unit unit equilibrium_ops integrator
           (state_of [1; 1]%float) started
           (mkChemicalState 350 200000 [1; 1])%float 0%float [1; 1]%float
           [0; 0]%float 0%Z (snd (fst (fst F))) (snd (fst F)) (snd F)).
  - apply euler_callback_driven.
  - apply after_initialize.
  - vm_compute; reflexivity.
  - vm_compute; reflexivity.
Defined.


(** One step of [uptake] from one mole of each species: the Euler step
    takes the abundance of the element to [-1], the solver throws, and the
    state keeps the three moles of the kinetic species written before. *)
Lemma step_until_uptake_run :
  let '(c, t', impl', state') :=
    step_until equilibrium_ops integrator started (state_of [1; 1]%float)
      0%float 10%float in
  c = Raised /\ benk impl' = [(-1); 3]%float /\
  speciesAmounts state' = [1; 3]%float.
Proof. vm_compute. repeat split. Qed.


(** One step of [idle], whose rate is zero: the integrated vector and the
    state are what they were. *)
Lemma step_until_idle_run :
  let '(c, t', impl', state') :=
    step_until equilibrium_ops integrator
      (initialize equilibrium_ops integrator idle (state_of [1; 1]%float)
         0%float)
      (state_of [1; 1]%float) 0%float 10%float in
  c = Normal tt /\ t' = 1%float /\ benk impl' = [1; 1]%float /\
  state' = state_of [1; 1]%float.
Proof. vm_compute. repeat split. Qed.

(** C6 on the code: given a [u] whose kinetic amount is a NaN, [jacobian]
    returns [0], the code of success, and has written the NaN into the
    chemical state; [function] returns [1] there and writes nothing. *)
Theorem jacobian_accepts_nonfinite :
  let '(c, _, _, state') :=
    jacobian equilibrium_ops evaluated (state_of [1; 1]%float) 0%float
      [1; nan]%float empty_matrix in
  c = Normal 0%Z /\ speciesAmounts state' = [1; nan]%float.
Proof. vm_compute. split; reflexivity. Qed.

(** C7 on the code: in [uptake] the first entry of [u] is the abundance of
    the element ([Ee = 1]), not the amount of a kinetic species; at
    [u = [0; 1]] it is below the threshold, its derivative is computed as
    [-2] and [function] returns [0] for it: the floor, which its comment
    gives to the kinetic species, reaches the abundances too. *)
Theorem floor_reaches_be_components :
  let '(c, res', impl', _) :=
    function equilibrium_ops uptake (state_of [0; 1]%float) 0%float
      [0; 1]%float [0; 0]%float in
  c = Normal 0%Z /\ Ee uptake = 1 /\
  (abs (at_ [0; 1]%float 0) <? threshold)%float = true /\
  computed_derivative impl' [0; 0]%float = [(-2); 2]%float /\
  res' = [0; 2]%float.
Proof. vm_compute. repeat split. Qed.

(** C8 on the code: [step(state, t)] is [step(state, t, tfinal)] with
    [tfinal = 4294967295], a finite time; a step of one second from
    [t = 4294967294.5] stops there. *)
Theorem step_is_bounded_by_unsigned_max :
  (forall (EQ ODE : Type) (eops : EquilibriumOps EQ)
          (oops : ODEOps ODE (Env EQ ODE)) impl state t,
      step eops oops impl state t
      = step_until eops oops impl state t 4294967295%float) /\
  is_finite 4294967295%float = true /\
  let '(c, t', _, _) :=
    step equilibrium_ops integrator
      (initialize equilibrium_ops integrator decay (state_of [1; 1]%float)
         4294967294.5%float)
      (state_of [1; 1]%float) 4294967294.5%float in
  c = Normal tt /\ t' = 4294967295%float.
Proof.
  split; [|split].
  - intros EQ ODE eops oops impl state t. reflexivity.
  - reflexivity.
  - vm_compute. split; reflexivity.
Qed.

End Runs.

(** ** More facts about vectors *)

Module DenseMore.
Import Dense DenseFacts.

Lemma at_app_left (v w : Vector) (i : nat) :
  i < length v -> at_ (v ++ w) i = at_ v i.
Proof. intros Hi. unfold at_. apply app_nth1. exact Hi. Qed.

Lemma at_app_right (v w : Vector) (i : nat) :
  length v <= i -> at_ (v ++ w) i = at_ w (i - length v).
Proof. intros Hi. unfold at_. apply app_nth2. exact Hi. Qed.

(** Two segment assignments that cover a vector leave the two vectors
    assigned, one after the other. *)
Lemma set_segments_app (v x y : Vector) :
  length v = length x + length y ->
  set_segment (set_segment v 0 (length x) x) (length x) (length y) y = x ++ y.
Proof.
  intros Hlen. apply vector_ext.
  - rewrite !length_set_segment, length_app. exact Hlen.
  - intros i Hi. rewrite !length_set_segment in Hi.
    rewrite at_set_segment by (rewrite length_set_segment; exact Hi).
    destruct (Nat.lt_ge_cases i (length x)) as [Hlt|Hge].
    + replace (length x <=? i) with false by (symmetry; apply Nat.leb_gt; lia).
      cbn [andb]. rewrite at_set_segment by exact Hi.
      replace ((0 <=? i) && (i <? 0 + length x)) with true
        by (symmetry; apply andb_true_iff; split;
            [apply Nat.leb_le | apply Nat.ltb_lt]; lia).
      rewrite Nat.sub_0_r, at_app_left by exact Hlt. reflexivity.
    + replace ((length x <=? i) && (i <? length x + length y)) with true
        by (symmetry; apply andb_true_iff; split;
            [apply Nat.leb_le | apply Nat.ltb_lt]; lia).
      rewrite at_app_right by exact Hge. reflexivity.
Qed.

(** What they leave does not depend on what the vector held. *)
Lemma set_segments_cover (v v' x y : Vector) (n m : nat) :
  length v = n + m -> length v' = n + m ->
  set_segment (set_segment v 0 n x) n m y
  = set_segment (set_segment v' 0 n x) n m y.
Proof.
  intros Hv Hv'. apply vector_ext.
  - rewrite !length_set_segment. congruence.
  - intros i Hi. rewrite !length_set_segment in Hi.
    rewrite !at_set_segment
      by (rewrite ?length_set_segment; congruence || lia).
    destruct ((n <=? i) && (i <? n + m)) eqn:Hsecond; [reflexivity|].
    replace ((0 <=? i) && (i <? 0 + n)) with true; [reflexivity|].
    symmetry. apply andb_true_iff. split; [apply Nat.leb_le; lia|].
    apply Nat.ltb_lt. apply andb_false_iff in Hsecond.
    destruct Hsecond as [H|H];
      [apply Nat.leb_gt in H | apply Nat.ltb_ge in H]; lia.
Qed.

Lemma segment_app_left (x y : Vector) :
  segment (x ++ y) 0 (length x) = x.
Proof.
  unfold segment. cbn [skipn]. rewrite firstn_app, Nat.sub_diag, firstn_all.
  cbn [firstn]. apply app_nil_r.
Qed.

Lemma segment_app_right (x y : Vector) :
  segment (x ++ y) (length x) (length y) = y.
Proof.
  unfold segment. rewrite skipn_app, skipn_all, Nat.sub_diag.
  cbn [skipn app]. apply firstn_all.
Qed.

End DenseMore.

(** ** More facts about the kinetic path *)

Module KineticPathLaws.
Import Dense DenseFacts DenseMore KineticPath KineticPathFacts.

Section Laws.

Variables EQ ODE : Type.
Variable equilibrium_ops : EquilibriumOps EQ.
Variable ode_ops : ODEOps ODE (Env EQ ODE).

Local Abbreviation Impl := (Impl EQ ODE).

(** *** The codes and the buffer of the right-hand side *)

(** X1: when [function] returns, the code is [1] if [u] has an entry that
    is not finite, and then [res] and the state are as given, and [0]
    otherwise; there is no other code. *)
Theorem function_code (impl : Impl) (state : ChemicalState) (t : float)
    (u res : Vector) (c : Z) (res' : Vector) (impl' : Impl)
    (state' : ChemicalState) :
  function equilibrium_ops impl state t u res = (Normal c, res', impl', state') ->
  (has_nonfinite u = true /\ c = 1%Z /\ res' = res /\ state' = state) \/
  (has_nonfinite u = false /\ c = 0%Z).
Proof.
  unfold function. destruct (has_nonfinite u).
  - intros H. injection H as <- <- <- <-. left. repeat split.
  - destruct (equilibrium_solve _ _ _ _) as [[[x|] equilibrium'] state1];
      intros H; [|discriminate H].
    injection H as <- <- <- <-. right. split; reflexivity.
Qed.

(** X2: [function] writes into [res] only when it returns [0]: when it
    returns another code or the equilibrium solver throws, [res] is as
    given. *)
Theorem function_writes_on_success_only (impl : Impl) (state : ChemicalState)
    (t : float) (u res : Vector) (c : completion Z) (res' : Vector)
    (impl' : Impl) (state' : ChemicalState) :
  function equilibrium_ops impl state t u res = (c, res', impl', state') ->
  c <> Normal 0%Z ->
  res' = res.
Proof.
  unfold function. destruct (has_nonfinite u).
  - intros H _. injection H as <- <- <- <-. reflexivity.
  - destruct (equilibrium_solve _ _ _ _) as [[[x|] equilibrium'] state1];
      intros H Hc; injection H as <- <- <- <-.
    + contradiction Hc. reflexivity.
    + reflexivity.
Qed.

Lemma length_computed_derivative (impl : Impl) (res : Vector) :
  length (computed_derivative impl res) = length res.
Proof. unfold computed_derivative. rewrite !length_set_segment. reflexivity. Qed.

(** X3: the derivative [function] returns has as many entries as the buffer
    it was given, and none of them is negative at an index of [u] where
    [|u[i]|] is below the threshold. *)
Theorem function_never_negative_when_depleted (impl : Impl)
    (state : ChemicalState) (t : float) (u res : Vector) (c : Z)
    (res' : Vector) (impl' : Impl) (state' : ChemicalState) :
  function equilibrium_ops impl state t u res = (Normal c, res', impl', state') ->
  has_nonfinite u = false ->
  length res' = length res /\
  forall i, i < length u ->
    (abs (at_ u i) <? threshold)%float = true ->
    (at_ res' i <? 0)%float = false.
Proof.
  intros Hrun Hfin.
  destruct (function_inv _ _ _ _ _ _ Hrun Hfin) as (_ & -> & _).
  split.
  - rewrite length_impose_lower_bound. apply length_computed_derivative.
  - intros i Hi Hu. rewrite impose_lower_bound_at, Hu.
    apply Nat.ltb_lt in Hi. rewrite Hi. cbn [andb].
    destruct (at_ (computed_derivative impl' res) i <? 0)%float eqn:Hneg.
    + reflexivity.
    + exact Hneg.
Qed.

(** X4: the floor of the last loop of [function] is idempotent. *)
Theorem impose_lower_bound_idempotent (u res : Vector) :
  impose_lower_bound u (impose_lower_bound u res) = impose_lower_bound u res.
Proof.
  apply vector_ext.
  - rewrite !length_impose_lower_bound. reflexivity.
  - intros i _. rewrite (impose_lower_bound_at u (impose_lower_bound u res)).
    rewrite impose_lower_bound_at.
    destruct (i <? length u); cbn [andb]; [|reflexivity].
    destruct (abs (at_ u i) <? threshold)%float; cbn [andb]; [|reflexivity].
    destruct (at_ res i <? 0)%float eqn:Hneg.
    + reflexivity.
    + rewrite Hneg. reflexivity.
Qed.

(** *** The coefficient matrix *)

(** X6: the matrix [A] that [setPartition] leaves depends on the partition
    and on the reactions only: every entry of the old [A] is overwritten, and
    [R] is given [numReactions] rows and [Ee + Nk] columns. *)
Theorem setPartition_rebuilds_A (impl1 impl2 : Impl) (p : Partition) :
  reactions impl1 = reactions impl2 ->
  same_matrix (A (setPartition equilibrium_ops impl1 p))
              (A (setPartition equilibrium_ops impl2 p)) /\
  mrows (R (setPartition equilibrium_ops impl1 p))
  = numReactions (reactions impl1) /\
  mcols (R (setPartition equilibrium_ops impl1 p))
  = length (indicesEquilibriumElements p) + length (indicesKineticSpecies p).
Proof.
  intros Hre. split; [|split; reflexivity].
  unfold setPartition. cbn [A]. rewrite Hre.
  split; [reflexivity|]. split; [reflexivity|].
  intros i j Hi _.
  cbn [coeff mrows mcols set_bottomRows set_topRows resize] in *.
  destruct (_ <=? i) eqn:Hbottom; [reflexivity|].
  apply Nat.leb_gt in Hbottom.
  replace (i <? length (indicesEquilibriumElements p)) with true;
    [reflexivity|].
  symmetry. apply Nat.ltb_lt. lia.
Qed.

(** *** Initialising, stepping and solving *)

Lemma length_resize_vec (v : Vector) (n : nat) : length (resize_vec v n) = n.
Proof. unfold resize_vec. rewrite length_map, length_seq. reflexivity. Qed.

Lemma set_segments_exact (v x y : Vector) (n m : nat) :
  length x = n -> length y = m -> length v = n + m ->
  set_segment (set_segment v 0 n x) n m y = x ++ y.
Proof. intros <- <- Hv. apply set_segments_app. exact Hv. Qed.

(** X7: [initialize] leaves in [benk] the abundances [We * ne] of the
    equilibrium elements followed by the amounts [nk] of the kinetic
    species, read from the state; its two segments give them back, and the
    integrator is initialised at [tstart] with that vector and [Ee + Nk]
    equations. *)
Theorem initialize_assembles_benk (impl : Impl) (state : ChemicalState)
    (tstart : float) :
  mrows (We impl) = Ee impl ->
  length (ispecies_k impl) = Nk impl ->
  let n := speciesAmounts state in
  let be0 := mat_vec (We impl) (rows n (ispecies_e impl)) in
  let nk0 := rows n (ispecies_k impl) in
  let impl' := initialize equilibrium_ops ode_ops impl state tstart in
  benk impl' = be0 ++ nk0 /\
  segment (benk impl') 0 (Ee impl') = be0 /\
  segment (benk impl') (Ee impl') (Nk impl') = nk0 /\
  ode impl'
  = ode_initialize ode_ops
      (ode_setProblem ode_ops (ode impl) (Ee impl + Nk impl)) tstart
      (be0 ++ nk0).
Proof.
  intros HW Hk n be0 nk0 impl'.
  assert (Hbe : length be0 = Ee impl)
    by (unfold be0; rewrite length_mat_vec; exact HW).
  assert (Hnk : length nk0 = Nk impl)
    by (unfold nk0, rows; rewrite length_map; exact Hk).
  assert (Hbenk : benk impl' = be0 ++ nk0).
  { unfold impl', initialize.
    cbn [benk set_ode set_benk set_nk set_ne set_P set_T Ee Nk We ne nk].
    apply set_segments_exact; [exact Hbe | exact Hnk | apply length_resize_vec]. }
  assert (HEe : Ee impl' = Ee impl) by reflexivity.
  assert (HNk : Nk impl' = Nk impl) by reflexivity.
  split; [exact Hbenk|]. rewrite Hbenk, HEe, HNk, <- Hbe, <- Hnk.
  split; [apply segment_app_left|]. split; [apply segment_app_right|].
  unfold impl', initialize.
  cbn [ode benk set_ode set_benk set_nk set_ne set_P set_T Ee Nk We ne nk
       problem numEquations].
  rewrite (@set_segments_exact _ _ _ _ _ Hbe Hnk (length_resize_vec _ _)).
  rewrite Hbe, Hnk. reflexivity.
Qed.

(** X8: [step] starts the integrator from the amounts of the state: what
    the member [benk] held before the call (the vector a previous step
    left, say) is overwritten and has no part in the result. *)
Theorem step_ignores_stale_benk (impl : Impl) (b : Vector)
    (state : ChemicalState) (t tfinal : float) :
  length (benk impl) = Ee impl + Nk impl ->
  length b = Ee impl + Nk impl ->
  step_until equilibrium_ops ode_ops (set_benk impl b) state t tfinal
  = step_until equilibrium_ops ode_ops impl state t tfinal.
Proof.
  intros Hbenk Hb. unfold step_until.
  cbn [benk ode set_benk set_nk set_ne Ee Nk We ne nk ispecies_e ispecies_k].
  assert (Hpre :
    set_benk
      (set_benk
         (set_nk
            (set_ne (set_benk impl b)
               (rows (speciesAmounts state) (ispecies_e impl)))
            (rows (speciesAmounts state) (ispecies_k impl)))
         (set_segment b 0 (Ee impl)
            (mat_vec (We impl)
               (rows (speciesAmounts state) (ispecies_e impl)))))
      (set_segment
         (set_segment b 0 (Ee impl)
            (mat_vec (We impl)
               (rows (speciesAmounts state) (ispecies_e impl))))
         (Ee impl) (Nk impl) (rows (speciesAmounts state) (ispecies_k impl)))
    = set_benk
        (set_benk
           (set_nk
              (set_ne impl (rows (speciesAmounts state) (ispecies_e impl)))
              (rows (speciesAmounts state) (ispecies_k impl)))
           (set_segment (benk impl) 0 (Ee impl)
              (mat_vec (We impl)
                 (rows (speciesAmounts state) (ispecies_e impl)))))
        (set_segment
           (set_segment (benk impl) 0 (Ee impl)
              (mat_vec (We impl)
                 (rows (speciesAmounts state) (ispecies_e impl))))
           (Ee impl) (Nk impl)
           (rows (speciesAmounts state) (ispecies_k impl)))).
  { unfold set_benk at 1 4. cbn [reactions system partition options equilibrium
      ode ispecies_e ispecies_k ielements_e ielements_k Ne Nk Ee Ek We Se Sk A
      T P ne nk be benk a r Be Re Rk R set_benk set_nk set_ne].
    rewrite (@set_segments_cover b (benk impl) _ _ _ _ Hb Hbenk).
    reflexivity. }
  rewrite Hpre, (@set_segments_cover b (benk impl) _ _ _ _ Hb Hbenk).
  reflexivity.
Qed.

Lemma update_state_keeps (impl : Impl) (state : ChemicalState)
    (c : completion unit) (impl' : Impl) (state' : ChemicalState) :
  update_state equilibrium_ops impl state = (c, impl', state') ->
  same_partition impl' impl.
Proof.
  unfold update_state.
  destruct (equilibrium_solve _ _ _ _) as [[c1 equilibrium'] state1].
  intros H. injection H as <- <- <-. repeat split.
Qed.

(** X9: a call of [step] keeps the members [setPartition] set (the index
    sets, [Ee], [Nk], [We], [Se], [Sk], the matrix [A] and the dimensions of
    [R]) and the members [T] and [P], when the integrator changes the
    members through the callbacks only: [A] is constant during an
    integration. *)
Theorem step_keeps_partition (impl : Impl) (state : ChemicalState)
    (t tfinal : float) (c : completion unit) (t' : float) (impl' : Impl)
    (state' : ChemicalState) :
  callback_driven ode_ops ->
  step_until equilibrium_ops ode_ops impl state t tfinal
  = (c, t', impl', state') ->
  same_partition impl' impl /\ T impl' = T impl /\ P impl' = P impl.
Proof.
  intros Hcb Hrun.
  destruct (@step_until_keeps _ _ equilibrium_ops ode_ops _ _ _ _ _ _ _ _
              Hcb Hrun) as (HT & HP).
  split; [|split; assumption]. clear HT HP.
  revert Hrun. unfold step_until.
  match goal with
  | |- context [ode_integrate ode_ops ?prob ?o ?t0 ?u0 ?tf ?e0] =>
      pose proof (proj1 (Hcb prob o t0 u0 e0) tf) as Hreach;
      set (i := ode_integrate ode_ops prob o t0 u0 tf e0) in *
  end.
  apply reached_keeps in Hreach. destruct Hreach as (_ & _ & Hs).
  cbn [fst] in Hs.
  assert (Hafter : same_partition (after_integration i) impl).
  { refine (same_partition_trans _ Hs). repeat split. }
  destruct (completed i).
  - destruct (update_state _ _ _) as [[c1 impl1] state1] eqn:Hupd.
    intros H. injection H as <- <- <- <-.
    exact (same_partition_trans (@update_state_keeps _ _ _ _ _ Hupd) Hafter).
  - intros H. injection H as <- <- <- <-. exact Hafter.
Qed.

(** X10: when [t < t + dt] does not hold ([dt] zero, negative or NaN), the
    loop of [solveWithOutput] makes no step, whatever the bound on the
    number of steps: the call is [initialize] followed by the write of [nk]
    and the equilibrium solve. *)
Theorem solveWithOutput_without_time (fuel : nat) (impl : Impl)
    (state : ChemicalState) (t dt : float) :
  (t <? t + dt)%float = false ->
  solveWithOutput equilibrium_ops ode_ops fuel impl state t dt
  = Some (update_state equilibrium_ops
            (initialize equilibrium_ops ode_ops impl state t) state).
Proof.
  intros Hdt. unfold solveWithOutput.
  destruct fuel; cbn [integrate_until]; rewrite Hdt; reflexivity.
Qed.

(** X11: when the loop of [solveWithOutput] ends without a failure, the
    time it reached is not below [tfinal] any more. *)
Theorem integrate_until_reaches_tfinal (fuel : nat) (impl : Impl)
    (state : ChemicalState) (t tfinal t' : float) (impl' : Impl)
    (state' : ChemicalState) :
  integrate_until equilibrium_ops ode_ops fuel impl state t tfinal
  = Some (true, t', impl', state') ->
  (t' <? tfinal)%float = false.
Proof.
  revert impl state t. induction fuel as [|fuel IH]; intros impl state t;
    cbn [integrate_until].
  - destruct (t <? tfinal)%float eqn:Ht; [discriminate|].
    intros H. injection H as <- <- <-. exact Ht.
  - destruct (t <? tfinal)%float eqn:Ht.
    + match goal with
      | |- context [ode_integrate ode_ops ?prob ?o ?t0 ?u0 ?tf ?e0] =>
          set (i := ode_integrate ode_ops prob o t0 u0 tf e0) in *
      end.
      destruct (completed i); [apply IH | discriminate].
    + intros H. injection H as <- <- <-. exact Ht.
Qed.

End Laws.

End KineticPathLaws.

(** ** What a step and a solve leave *)

Module KineticPathSteps.
Import Dense DenseFacts DenseMore FloatFacts KineticPath KineticPathFacts
       KineticPathLaws.

Section Steps.

Variables EQ ODE : Type.
Variable equilibrium_ops : EquilibriumOps EQ.
Variable ode_ops : ODEOps ODE (Env EQ ODE).

Local Abbreviation Impl := (Impl EQ ODE).

Lemma update_state_written (mid : Impl) (state_mid : ChemicalState)
    (c : completion unit) (impl' : Impl) (state' : ChemicalState) :
  update_state equilibrium_ops mid state_mid = (c, impl', state') ->
  written_back equilibrium_ops mid state_mid c impl' state'.
Proof.
  unfold update_state, written_back.
  destruct (equilibrium_solve _ _ _ _) as [[c1 equilibrium'] state1] eqn:Hsolve.
  intros H. injection H as <- <- <-.
  cbn [benk be nk equilibrium set_equilibrium set_nk set_be Ee Nk ispecies_k]
    in *.
  repeat split. exact Hsolve.
Qed.

(** [step] is the call of the integrator, then the write-back when the
    integrator returned. *)
Lemma step_until_outcome (impl : Impl) (state : ChemicalState)
    (t tfinal : float) (c : completion unit) (t' : float) (impl' : Impl)
    (state' : ChemicalState) :
  step_until equilibrium_ops ode_ops impl state t tfinal
  = (c, t', impl', state') ->
  let i := step_integration equilibrium_ops ode_ops impl state t tfinal in
  t' = time i /\
  ((completed i = true /\
    written_back equilibrium_ops (after_integration i) (snd (env i)) c impl'
      state') \/
   (completed i = false /\ c = Raised /\
    impl' = after_integration i /\ state' = snd (env i))).
Proof.
  intros Hrun i.
  change (step_until equilibrium_ops ode_ops impl state t tfinal)
    with (if completed i
          then let '(done, impl1, state1) :=
                 update_state equilibrium_ops (after_integration i)
                   (snd (env i)) in
               (done, time i, impl1, state1)
          else (Raised, time i, after_integration i, snd (env i)))
    in Hrun.
  destruct (completed i).
  - destruct (update_state _ _ _) as [[c1 impl1] state1] eqn:Hupd.
    injection Hrun as <- <- <- <-. split; [reflexivity|]. left.
    split; [reflexivity|]. apply update_state_written. exact Hupd.
  - injection Hrun as <- <- <- <-. split; [reflexivity|]. right.
    repeat split.
Qed.




(** *** Zero rates *)

Lemma function_zero_is_finite (impl : Impl) (state : ChemicalState)
    (t : float) (u res : Vector) (res' : Vector) (impl' : Impl)
    (state' : ChemicalState) :
  function equilibrium_ops impl state t u res
  = (Normal 0%Z, res', impl', state') ->
  has_nonfinite u = false.
Proof.
  unfold function. destruct (has_nonfinite u); [|reflexivity].
  intros H. discriminate H.
Qed.

Lemma assembled_keeps (impl : Impl) (state : ChemicalState) :
  same_partition (assembled impl state) impl.
Proof. repeat split. Qed.

(** What [step] hands to the integrator is [We * ne] followed by [nk]. *)
Lemma benk_assembled (impl : Impl) (state : ChemicalState) :
  mrows (We impl) = Ee impl ->
  length (ispecies_k impl) = Nk impl ->
  length (benk impl) = Ee impl + Nk impl ->
  benk (assembled impl state)
  = mat_vec (We impl) (rows (speciesAmounts state) (ispecies_e impl))
    ++ rows (speciesAmounts state) (ispecies_k impl).
Proof.
  intros HW Hk Hlen. unfold assembled.
  cbn [benk set_benk set_nk set_ne Ee Nk We ne nk ispecies_e ispecies_k].
  apply set_segments_exact.
  - rewrite length_mat_vec. exact HW.
  - unfold rows. rewrite length_map. exact Hk.
  - exact Hlen.
Qed.

(** C9, as the code has it.  When the entries of [A] are finite numbers:
    an evaluation of the right-hand side whose rates [r.val] are all zero
    returns the zero vector; and when the rates are zero at every
    composition, every evaluation the integrator makes during a [step]
    returns the zero vector, so that with an integrator that then returns
    the vector it was given, [step] leaves [u = [We * ne; nk]] as it was,
    writes the kinetic amounts the state had back into it and has the
    equilibrium species solved for the same [be]. *)
Theorem zero_rates_leave_u_unchanged (impl0 impl : Impl) (p : Partition)
    (state : ChemicalState) (t tfinal : float) :
  same_partition impl (setPartition equilibrium_ops impl0 p) ->
  mrows (formulaMatrixEquilibriumSpecies p)
  = length (indicesEquilibriumElements p) ->
  mrows (stoichiometricMatrix (reactions impl0))
  = numReactions (reactions impl0) ->
  (forall i k, i < mrows (A impl) -> k < mcols (A impl) ->
     is_finite (coeff (A impl) i k) = true) ->
  length (benk impl) = Ee impl + Nk impl ->
  callback_driven ode_ops ->
  let start := assembled impl state in
  let i := step_integration equilibrium_ops ode_ops impl state t tfinal in
  let n := speciesAmounts state in
  let be0 := mat_vec (We impl) (rows n (ispecies_e impl)) in
  let nk0 := rows n (ispecies_k impl) in
  (forall state1 t1 u res c res' impl' state',
      length res = Ee impl + Nk impl ->
      has_nonfinite u = false ->
      function equilibrium_ops impl state1 t1 u res
      = (Normal c, res', impl', state') ->
      Forall (fun x => is_zero x = true) (val (r impl')) ->
      c = 0%Z /\ res' = repeat 0%float (Ee impl + Nk impl)) /\
  ((forall T P composition activity,
       Forall (fun x => is_zero x = true)
         (val (rates (reactions impl) T P composition activity))) ->
   rhs_zero (problem equilibrium_ops start) (start, state) /\
   ((rhs_zero (problem equilibrium_ops start) (start, state) ->
     solution i = benk start) ->
    completed i = true ->
    forall c t' impl' state',
      step_until equilibrium_ops ode_ops impl state t tfinal
      = (c, t', impl', state') ->
      benk start = be0 ++ nk0 /\
      benk impl' = be0 ++ nk0 /\
      be impl' = be0 /\ nk impl' = nk0 /\
      equilibrium_solve equilibrium_ops (equilibrium (fst (env i)))
        (setSpeciesAmounts (snd (env i)) nk0 (ispecies_k impl)) be0
      = (c, equilibrium impl', state'))).
Proof.
  intros Hsame HW HS HA Hlen Hcb start i n be0 nk0.
  split.
  { intros state1 t1 u res c res' impl' state' Hres Hfin Hrun Hzero.
    exact (@function_zero_rates _ _ equilibrium_ops impl0 impl p state1 t1 u
             res c res' impl' state' Hsame HW HS Hres HA Hfin Hrun Hzero). }
  intros Hrates.
  assert (Hrhs : rhs_zero (problem equilibrium_ops start) (start, state)).
  { intros e Hreach t1 u res res' e' Hres Hcall.
    cbn [problem ode_function numEquations] in Hcall, Hres |- *.
    destruct (function equilibrium_ops (fst e) (snd e) t1 u res)
      as [[[c1 res1] impl1] state1] eqn:Hrun.
    injection Hcall as -> -> _.
    apply reached_keeps in Hreach. destruct Hreach as (_ & _ & Hs).
    cbn [fst] in Hs.
    assert (Hse : same_partition (fst e) impl)
      by exact (same_partition_trans Hs (assembled_keeps impl state)).
    assert (HEe : Ee (fst e) = Ee impl) by apply Hse.
    assert (HNk : Nk (fst e) = Nk impl) by apply Hse.
    assert (HAe : A (fst e) = A impl) by apply Hse.
    assert (Hre : reactions (fst e) = reactions impl) by apply Hse.
    assert (Hstart : Ee start + Nk start = Ee impl + Nk impl) by reflexivity.
    rewrite Hstart in *.
    pose proof Hrun as Hinv.
    apply function_inv in Hinv; [|exact (function_zero_is_finite _ _ _ _ _ Hrun)].
    destruct Hinv as (_ & _ & _ & Hr & _).
    assert (Hres' : length res = Ee (fst e) + Nk (fst e))
      by (rewrite HEe, HNk; exact Hres).
    assert (HA' : forall i k, i < mrows (A (fst e)) -> k < mcols (A (fst e)) ->
                    is_finite (coeff (A (fst e)) i k) = true)
      by (rewrite HAe; exact HA).
    assert (Hzero : Forall (fun x => is_zero x = true) (val (r impl1)))
      by (rewrite Hr, Hre; apply Hrates).
    pose proof (@function_zero_rates _ _ equilibrium_ops impl0 (fst e) p
                  (snd e) t1 u res 0%Z res' impl1 state1
                  (same_partition_trans Hse Hsame) HW HS Hres' HA'
                  (function_zero_is_finite _ _ _ _ _ Hrun) Hrun Hzero)
      as (_ & Hzeros).
    rewrite HEe, HNk in Hzeros. exact Hzeros. }
  split; [exact Hrhs|].
  intros Hode Hdone c t' impl' state' Hrun.
  specialize (Hode Hrhs).
  destruct Hsame as (_ & _ & Hik & HEe & HNk & HWe & _).
  assert (HW' : mrows (We impl) = Ee impl)
    by (rewrite HWe, HEe; exact HW).
  assert (Hk : length (ispecies_k impl) = Nk impl)
    by (rewrite Hik, HNk; reflexivity).
  assert (Hstart : benk start = be0 ++ nk0)
    by exact (benk_assembled impl state HW' Hk Hlen).
  assert (Hbe : length be0 = Ee impl)
    by (unfold be0; rewrite length_mat_vec; exact HW').
  assert (Hnk : length nk0 = Nk impl)
    by (unfold nk0, rows; rewrite length_map; exact Hk).
  pose proof (proj1 (Hcb (problem equilibrium_ops start) (ode start) t
                       (benk start) (start, state)) tfinal) as Hreach.
  apply reached_keeps in Hreach. destruct Hreach as (_ & _ & Hs).
  fold i in Hs. cbn [fst] in Hs.
  assert (HEi : Ee (after_integration i) = Ee impl) by apply Hs.
  assert (HNi : Nk (after_integration i) = Nk impl) by apply Hs.
  assert (Hki : ispecies_k (after_integration i) = ispecies_k impl)
    by apply Hs.
  apply step_until_outcome in Hrun. fold i in Hrun.
  destruct Hrun as (_ & [(_ & Hb & Hbe' & Hnk' & Hsolve)|(Hno & _)]);
    [|rewrite Hdone in Hno; discriminate Hno].
  assert (Hmid : benk (after_integration i) = be0 ++ nk0)
    by (cbn [after_integration benk set_benk]; rewrite Hode; exact Hstart).
  rewrite Hmid, HEi, HNi in *. rewrite Hki in Hsolve.
  rewrite <- Hbe in Hbe'. rewrite <- Hbe, <- Hnk in Hnk'.
  rewrite segment_app_left in Hbe'. rewrite segment_app_right in Hnk'.
  rewrite Hbe', Hnk' in Hsolve.
  split; [exact Hstart|]. split; [exact Hb|].
  split; [exact Hbe'|]. split; [exact Hnk'|]. exact Hsolve.
Qed.

End Steps.

End KineticPathSteps.

(** ** Facts about the output of the chemical state *)

Module ChemicalOutputFacts.
Import ChemicalOutput.
Import String.
Local Open Scope string_scope.

Lemma append_nil_r (s : string) : s ++ "" = s.
Proof. induction s as [|c s IH]; simpl; [reflexivity | rewrite IH; reflexivity]. Qed.

Lemma append_assoc (s1 s2 s3 : string) : (s1 ++ s2) ++ s3 = s1 ++ (s2 ++ s3).
Proof.
  induction s1 as [|c s1 IH]; simpl; [reflexivity | rewrite IH; reflexivity].
Qed.

Lemma length_append (s1 s2 : string) :
  length (s1 ++ s2) = length s1 + length s2.
Proof.
  induction s1 as [|c s1 IH]; simpl; [reflexivity | rewrite IH; reflexivity].
Qed.

Lemma length_spaces (n : nat) : length (spaces n) = n.
Proof. induction n as [|n IH]; simpl; [reflexivity | rewrite IH; reflexivity]. Qed.

(** A column is twenty characters wide, or as wide as a longer text. *)
Lemma length_setw_left (w : nat) (s : string) :
  length (setw_left w s) = Nat.max w (length s).
Proof. unfold setw_left. rewrite length_append, length_spaces. lia. Qed.

Lemma empty_length (s : string) : empty s = Nat.eqb (length s) 0.
Proof. destruct s; reflexivity. Qed.

Section Facts.

Variable Quantity : Type.
Variable quantity_update :
  Quantity -> KineticPath.ChemicalState -> float -> Quantity.
Variable quantity_value : Quantity -> string -> float.
Variable can_open : string -> bool.
Variable show : float -> string.

Local Abbreviation Impl := (Impl Quantity).

Lemma cout_write (impl : Impl) (out : Streams) (s : string) :
  cout (write impl out s)
  = if terminal impl then cout out ++ s else cout out.
Proof. unfold write. destruct (datafile impl), (terminal impl); reflexivity. Qed.

Lemma file_write (impl : Impl) (out : Streams) (s : string) :
  file (write impl out s)
  = if datafile impl then file out ++ s else file out.
Proof. unfold write. destruct (datafile impl), (terminal impl); reflexivity. Qed.

Lemma streams_ext (o1 o2 : Streams) :
  cout o1 = cout o2 -> file o1 = file o2 -> o1 = o2.
Proof. destruct o1, o2. simpl. intros -> ->. reflexivity. Qed.

Lemma write_write (impl : Impl) (out : Streams) (s1 s2 : string) :
  write impl (write impl out s1) s2 = write impl out (s1 ++ s2).
Proof.
  apply streams_ext; rewrite ?cout_write, ?file_write.
  - destruct (terminal impl); [apply append_assoc | reflexivity].
  - destruct (datafile impl); [apply append_assoc | reflexivity].
Qed.

(** The loop over the words and the end of the line write the line. *)
Lemma write_words (impl : Impl) (f : string -> string) (words : list string)
    (out : Streams) (tail : string) :
  write impl (fold_left (fun out word => write impl out (f word)) words out)
    tail
  = write impl out (fold_right (fun word rest => f word ++ rest) tail words).
Proof.
  revert out. induction words as [|word words IH]; intros out; simpl.
  - reflexivity.
  - rewrite IH. apply write_write.
Qed.

Lemma line_map (f : string -> string) (words : list string) :
  fold_right (fun word rest => setw_left 20 (f word) ++ rest) endl words
  = line (map f words).
Proof.
  unfold line. induction words as [|word words IH]; simpl;
    [reflexivity | rewrite IH; reflexivity].
Qed.

(** X13: [open] throws exactly when the output converts to [false], that is when
    neither the terminal nor a file was asked for; it has then written
    nothing, and when it returns it returns normally. *)
Theorem open_throws_iff_not_configured (impl : Impl) (out : Streams) :
  (to_bool impl = false ->
   open can_open impl out = (KineticPath.Raised, close impl, out)) /\
  (to_bool impl = true ->
   exists impl' out',
     open can_open impl out = (KineticPath.Normal tt, impl', out')).
Proof.
  unfold to_bool, open. cbn [close filename terminal].
  rewrite empty_length.
  destruct (terminal impl), (Nat.eqb (length (filename impl)) 0);
    cbn [negb orb]; split; intros H; try discriminate H;
    try reflexivity; eexists; eexists; reflexivity.
Qed.

(** X14: a call of [open] that returns has written one line: the header, or the
    names of the data when no header was given, each name in its column.
    The terminal, when asked for, has the line after what it had; the file,
    when one was named and could be opened, holds that line only. *)
Theorem open_writes_header (impl impl' : Impl) (out out' : Streams) :
  open can_open impl out = (KineticPath.Normal tt, impl', out') ->
  let words := if no_words (header impl) then data impl else header impl in
  header impl' = words /\
  data impl' = data impl /\
  datafile impl' = negb (empty (filename impl)) && can_open (filename impl) /\
  cout out' = (if terminal impl then cout out ++ line words else cout out) /\
  file out' = (if datafile impl' then line words else file out).
Proof.
  unfold open. cbn [close filename terminal header data datafile quantity].
  destruct (negb (negb (empty (filename impl)) || terminal impl));
    [discriminate|].
  intros H. injection H as <- <-. cbv zeta.
  rewrite write_words, cout_write, file_write.
  cbn [header data datafile terminal cout file].
  fold (line (if no_words (header impl) then data impl else header impl)).
  split; [reflexivity|]. split; [reflexivity|].
  destruct (empty (filename impl)); cbn [negb andb].
  - repeat split.
  - destruct (can_open (filename impl)); repeat split.
Qed.

(** X15: a call of [update] writes one line, the values of the data each in its
    column, after what the terminal had, when it was asked for, and after
    what the file had, when it is open: both get the same text.  A stream
    that is not in use is left as it was. *)
Theorem update_writes_row (impl : Impl) (out : Streams)
    (state : KineticPath.ChemicalState) (t : float) :
  let q := quantity_update (quantity impl) state t in
  let row := line (map (fun word => show (quantity_value q word)) (data impl)) in
  let '(impl', out') :=
    update quantity_update quantity_value show impl out state t in
  cout out' = (if terminal impl then cout out ++ row else cout out) /\
  file out' = (if datafile impl then file out ++ row else file out) /\
  terminal impl' = terminal impl /\ datafile impl' = datafile impl /\
  data impl' = data impl /\ header impl' = header impl.
Proof.
  unfold update. cbv zeta.
  rewrite (write_words _ (fun word => setw_left 20 (show (quantity_value _ word)))).
  rewrite cout_write, file_write, line_map.
  cbn [header data datafile terminal quantity]. repeat split.
Qed.

Lemma length_line (words : list string) :
  Forall (fun word => length word <= 20) words ->
  length (line words) = 20 * List.length words + 1.
Proof.
  unfold line. induction 1 as [|word words Hword _ IH]; simpl fold_right.
  - reflexivity.
  - rewrite length_append, length_setw_left, IH. simpl List.length. lia.
Qed.

(** What [open] and [update] leave in the streams, for an output whose
    header is taken from the data. *)
Lemma open_streams (impl impl' : Impl) (out out' : Streams) :
  open can_open impl out = (KineticPath.Normal tt, impl', out') ->
  header impl = [] ->
  data impl' = data impl /\ terminal impl' = terminal impl /\
  cout out' = (if terminal impl then cout out ++ line (data impl)
               else cout out) /\
  file out' = (if datafile impl' then line (data impl) else file out).
Proof.
  unfold open. cbn [close filename terminal header data datafile quantity].
  destruct (negb (negb (empty (filename impl)) || terminal impl));
    [discriminate|].
  intros H Hheader. injection H as <- <-. cbv zeta.
  rewrite write_words, cout_write, file_write.
  cbn [header data datafile terminal cout file].
  rewrite Hheader. cbn [no_words]. fold (line (data impl)).
  split; [reflexivity|]. split; [reflexivity|].
  destruct (empty (filename impl)); cbn [negb andb].
  - repeat split.
  - destruct (can_open (filename impl)); repeat split.
Qed.

Lemma update_streams (impl : Impl) (out : Streams)
    (state : KineticPath.ChemicalState) (t : float) :
  let row :=
    line (map (fun word =>
                 show (quantity_value
                         (quantity_update (quantity impl) state t) word))
              (data impl)) in
  let '(_, out') :=
    update quantity_update quantity_value show impl out state t in
  cout out' = (if terminal impl then cout out ++ row else cout out) /\
  file out' = (if datafile impl then file out ++ row else file out).
Proof.
  unfold update. cbv zeta.
  rewrite (write_words _ (fun word => setw_left 20 (show (quantity_value _ word)))).
  rewrite cout_write, file_write, line_map.
  cbn [header data datafile terminal quantity]. repeat split.
Qed.

(** X16: the columns line up.  When [open] took the header from the data
    and no name and no printed value is longer than twenty characters, the
    line [open] writes and the line a following [update] writes have the
    same length, twenty characters per word and the end of the line: on the
    terminal, when it is on, after what it had, and in the file, when it is
    open, from its start. *)
Theorem header_and_rows_align (impl impl1 : Impl) (out out1 : Streams)
    (state : KineticPath.ChemicalState) (t : float) :
  open can_open impl out = (KineticPath.Normal tt, impl1, out1) ->
  header impl = [] ->
  Forall (fun word => length word <= 20) (data impl) ->
  Forall (fun word =>
            length (show (quantity_value
                            (quantity_update (quantity impl1) state t) word))
            <= 20) (data impl) ->
  let '(impl2, out2) :=
    update quantity_update quantity_value show impl1 out1 state t in
  exists head_line row,
    length head_line = 20 * List.length (data impl) + 1 /\
    length row = length head_line /\
    (terminal impl = true ->
     cout out1 = cout out ++ head_line /\ cout out2 = cout out1 ++ row) /\
    (datafile impl1 = true ->
     file out1 = head_line /\ file out2 = head_line ++ row).
Proof.
  intros Hopen Hheader Hnames Hvalues.
  pose proof (update_streams impl1 out1 state t) as Hupdate.
  cbv zeta in Hupdate.
  destruct (update _ _ _ _ _ _ _) as [impl2 out2].
  destruct Hupdate as (Hcout2 & Hfile2).
  destruct (@open_streams impl impl1 out out1 Hopen Hheader)
    as (Hdata & Hterminal & Hcout1 & Hfile1).
  rewrite Hdata in Hcout2, Hfile2.
  exists (line (data impl)),
    (line (map (fun word =>
                  show (quantity_value
                          (quantity_update (quantity impl1) state t) word))
               (data impl))).
  split; [exact (length_line Hnames)|]. split.
  - rewrite !length_line, length_map; [reflexivity | exact Hnames |].
    apply Forall_map. exact Hvalues.
  - split.
    + intros Hterm. rewrite Hterminal, Hterm in Hcout2.
      rewrite Hterm in Hcout1. split; assumption.
    + intros Hfile. rewrite Hfile in Hfile1, Hfile2.
      rewrite Hfile1 in Hfile2. split; assumption.
Qed.

(** X17: after [close], [update] writes nothing into the file; with the terminal
    off as well it writes nothing at all. *)
Theorem update_after_close (impl : Impl) (out : Streams)
    (state : KineticPath.ChemicalState) (t : float) :
  file (snd (update quantity_update quantity_value show (close impl) out
               state t))
  = file out /\
  (terminal impl = false ->
   snd (update quantity_update quantity_value show (close impl) out state t)
   = out).
Proof.
  pose proof (update_writes_row (close impl) out state t) as H.
  cbv zeta in H.
  destruct (update _ _ _ _ _ _ _) as [impl' out'].
  destruct H as (Hcout & Hfile & _). cbn [close datafile terminal] in *.
  cbn [snd]. split; [exact Hfile|].
  intros Hterm. rewrite Hterm in Hcout.
  apply streams_ext; assumption.
Qed.

End Facts.

End ChemicalOutputFacts.

(** ** More runs on the two-species system and on the sample output *)

Module MoreRuns.
Import Dense DenseFacts KineticPath KineticPathFacts KineticPathLaws TwoSpecies.

(** [function_code] on [uptake], the kinetic amount a NaN. *)
Lemma function_code_witness :
  let F :=
    function equilibrium_ops uptake (state_of [1; 1]%float) 0%float
      [1; nan]%float [0; 0]%float in
  (has_nonfinite [1; nan]%float = true /\ 1%Z = 1%Z /\
   snd (fst (fst F)) = [0; 0]%float /\ snd F = state_of [1; 1]%float) \/
  (has_nonfinite [1; nan]%float = false /\ 1%Z = 0%Z).
Proof.
  intros F.
  apply (@function_code unit unit equilibrium_ops uptake
           (state_of [1; 1]%float) 0%float [1; nan]%float [0; 0]%float 1%Z
           (snd (fst (fst F))) (snd (fst F)) (snd F)).
  vm_compute; reflexivity.
Defined.

(** [function_writes_on_success_only] on [uptake] with a negative abundance,
    for which the equilibrium solver throws. *)
Lemma function_writes_on_success_only_witness :
  snd (fst (fst (function equilibrium_ops uptake (state_of [1; 1]%float)
                   0%float [(-1); 1]%float [7; 9]%float)))
  = [7; 9]%float.
Proof.
  set (F := function equilibrium_ops uptake (state_of [1; 1]%float) 0%float
              [(-1); 1]%float [7; 9]%float).
  apply (@function_writes_on_success_only unit unit equilibrium_ops uptake
           (state_of [1; 1]%float) 0%float [(-1); 1]%float [7; 9]%float
           Raised (snd (fst (fst F))) (snd (fst F)) (snd F)).
  - vm_compute; reflexivity.
  - discriminate.
Defined.

(** [function_never_negative_when_depleted] on [decay] with [2^-200] moles
    of the kinetic species. *)
Lemma function_never_negative_when_depleted_witness :
  (at_
     (snd (fst (fst (function equilibrium_ops decay (state_of [1; 1]%float)
                       0%float [1; 0x1p-200]%float [0; 0]%float))))
     1 <? 0)%float
  = false.
Proof.
  set (F := function equilibrium_ops decay (state_of [1; 1]%float) 0%float
              [1; 0x1p-200]%float [0; 0]%float).
  apply (proj2 (@function_never_negative_when_depleted unit unit
                  equilibrium_ops decay (state_of [1; 1]%float) 0%float
                  [1; 0x1p-200]%float [0; 0]%float 0%Z (snd (fst (fst F)))
                  (snd (fst F)) (snd F)
                  ltac:(vm_compute; reflexivity)
                  ltac:(vm_compute; reflexivity))).
  - vm_compute. lia.
  - vm_compute; reflexivity.
Defined.

(** [setPartition_rebuilds_A]: the partition set on the blank members and
    set again on [uptake]. *)
Lemma setPartition_rebuilds_A_witness :
  same_matrix (A (setPartition equilibrium_ops (blank (-1) 1 2) the_partition))
              (A (setPartition equilibrium_ops uptake the_partition)).
Proof.
  apply (proj1 (@setPartition_rebuilds_A unit unit equilibrium_ops
                  (blank (-1) 1 2) uptake the_partition eq_refl)).
Defined.

(** [initialize_assembles_benk] on [uptake] with two moles of the
    equilibrium species and three of the kinetic one. *)
Lemma initialize_assembles_benk_witness :
  benk (initialize equilibrium_ops integrator uptake (state_of [2; 3]%float)
          0%float)
  = mat_vec (We uptake) (rows [2; 3]%float (ispecies_e uptake))
    ++ rows [2; 3]%float (ispecies_k uptake).
Proof.
  apply (proj1 (@initialize_assembles_benk unit unit equilibrium_ops
                  integrator uptake (state_of [2; 3]%float) 0%float
                  eq_refl eq_refl)).
Defined.

(** [step_ignores_stale_benk] on [started], its [benk] replaced. *)
Lemma step_ignores_stale_benk_witness :
  step_until equilibrium_ops integrator (set_benk started [7; 9]%float)
    (state_of [1; 1]%float) 0%float 10%float
  = step_until equilibrium_ops integrator started (state_of [1; 1]%float)
      0%float 10%float.
Proof.
  apply (@step_ignores_stale_benk unit unit equilibrium_ops integrator
           started [7; 9]%float (state_of [1; 1]%float) 0%float 10%float).
  - vm_compute; reflexivity.
  - vm_compute; reflexivity.
Defined.

(** [step_keeps_partition] on a step of [decay] after [initialize]. *)
Lemma step_keeps_partition_witness :
  let F :=
    step_until equilibrium_ops integrator started_decay
      (state_of [1; 1]%float) 0%float 10%float in
  same_partition (snd (fst F)) started_decay /\
  T (snd (fst F)) = T started_decay /\ P (snd (fst F)) = P started_decay.
Proof.
  intros F.
  apply (@step_keeps_partition unit unit equilibrium_ops integrator
           started_decay
           (state_of [1; 1]%float) 0%float 10%float (fst (fst (fst F)))
           (snd (fst (fst F))) (snd (fst F)) (snd F)).
  - apply Runs.euler_callback_driven.
  - vm_compute; reflexivity.
Defined.

(** [solveWithOutput_without_time] on [decay] with [dt = 0]. *)
Lemma solveWithOutput_without_time_witness :
  solveWithOutput equilibrium_ops integrator 0 decay (state_of [1; 1]%float)
    0%float 0%float
  = Some (update_state equilibrium_ops
            (initialize equilibrium_ops integrator decay
               (state_of [1; 1]%float) 0%float)
            (state_of [1; 1]%float)).
Proof.
  apply (@solveWithOutput_without_time unit unit equilibrium_ops integrator
           0 decay (state_of [1; 1]%float) 0%float 0%float).
  vm_compute; reflexivity.
Defined.

(** [integrate_until_reaches_tfinal] on [decay] after [initialize], two
    seconds in steps of one. *)
Lemma integrate_until_reaches_tfinal_witness :
  (2 <? 2)%float = false.
Proof.
  set (F := integrate_until equilibrium_ops integrator 5 started_decay
              (state_of [1; 1]%float) 0%float 2%float).
  apply (@integrate_until_reaches_tfinal unit unit equilibrium_ops
           integrator 5 started_decay (state_of [1; 1]%float) 0%float 2%float
           2%float
           (match F with Some (_, _, impl', _) => impl' | None => decay end)
           (match F with Some (_, _, _, state') => state'
                    | None => state_of [1; 1]%float end)).
  vm_compute; reflexivity.
Defined.

End MoreRuns.

Module OutputRuns.
Import ChemicalOutput ChemicalOutputFacts OutputSample.
Import String.
Local Open Scope string_scope.

(** [open_throws_iff_not_configured] on the output that was not
    configured. *)
Lemma open_throws_iff_not_configured_witness :
  open writable unset blank_streams
  = (KineticPath.Raised, close unset, blank_streams).
Proof.
  apply (proj1 (@open_throws_iff_not_configured unit writable unset
                  blank_streams)).
  reflexivity.
Defined.

(** [open_writes_header] on the output to the terminal and to a file that
    held the text [old]. *)
Lemma open_writes_header_witness :
  let O := open writable both blank_streams in
  header (snd (fst O)) = ["t"; "pH"] /\
  data (snd (fst O)) = ["t"; "pH"] /\
  datafile (snd (fst O)) = true /\
  cout (snd O) = "" ++ line ["t"; "pH"] /\
  file (snd O) = (if datafile (snd (fst O)) then line ["t"; "pH"] else "old").
Proof.
  intros O.
  apply (@open_writes_header unit writable both (snd (fst O)) blank_streams
           (snd O)).
  vm_compute; reflexivity.
Defined.

(** [header_and_rows_align] on the output to the terminal and to a file. *)
Lemma header_and_rows_align_witness :
  let O := open writable both blank_streams in
  let '(impl2, out2) :=
    update renew value print (snd (fst O)) (snd O)
      (TwoSpecies.state_of [1; 1]%float) 0%float in
  exists head_line row,
    length head_line = 20 * List.length (data both) + 1 /\
    length row = length head_line /\
    (terminal both = true ->
     cout (snd O) = cout blank_streams ++ head_line /\
     cout out2 = cout (snd O) ++ row) /\
    (datafile (snd (fst O)) = true ->
     file (snd O) = head_line /\ file out2 = head_line ++ row).
Proof.
  intros O.
  apply (@header_and_rows_align unit renew value writable print both
           (snd (fst O)) blank_streams (snd O)
           (TwoSpecies.state_of [1; 1]%float) 0%float).
  - vm_compute; reflexivity.
  - reflexivity.
  - repeat constructor.
  - repeat constructor.
Defined.

(** [update_after_close] on an output to a file only. *)
Lemma update_after_close_witness :
  snd (update renew value print
         (close (mkImpl tt false "out.txt" ["t"; "pH"] [] true))
         blank_streams (TwoSpecies.state_of [1; 1]%float) 0%float)
  = blank_streams.
Proof.
  apply (proj2 (@update_after_close unit renew value print
                  (mkImpl tt false "out.txt" ["t"; "pH"] [] true)
                  blank_streams (TwoSpecies.state_of [1; 1]%float) 0%float)).
  reflexivity.
Defined.

End OutputRuns.

(** ** Facts about the interpolation *)

Module InterpolationFacts.
Import Interpolation.

Section Facts.

Variable BilinearInterpolator : Type.
Variable of_data :
  list float -> list float -> list float -> BilinearInterpolator.
Variable of_function :
  list float -> list float -> (float -> float -> float) ->
  BilinearInterpolator.
Variable at_point :
  BilinearInterpolator -> ThermoScalar -> ThermoScalar -> float.
Variable Temperature : float -> ThermoScalar.
Variable Pressure : float -> ThermoScalar.

(** X18: the interpolation of a vector of functions has one entry per function,
    and its entry [i] is the interpolation of the function [i] alone. *)
Theorem interpolate_functions_componentwise
    (temperatures pressures : list float) (fs : list ThermoScalarFunction)
    (T P : ThermoScalar) :
  let res :=
    interpolate_functions of_data of_function at_point Temperature Pressure
      temperatures pressures fs T P in
  length res = length fs /\
  forall i d, i < length fs ->
    nth i res d
    = interpolate_function of_function at_point Temperature Pressure
        temperatures pressures (nth i fs (fun _ _ => d)) T P.
Proof.
  cbv zeta. unfold interpolate_functions. split.
  - rewrite length_map, length_seq. reflexivity.
  - intros i d Hi.
    rewrite (DenseFacts.nth_map_seq _ d Hi).
    rewrite !(DenseFacts.nth_map_seq _ _ Hi).
    unfold interpolate_function.
    rewrite (nth_indep fs _ (fun _ _ => d) Hi). reflexivity.
Qed.

End Facts.

End InterpolationFacts.

(** ** Facts about the concentrations *)

Module AqueousPhaseFacts.
Import Dense DenseFacts FloatFacts AqueousPhase.

Lemma zero_mul_finite (z x : float) :
  is_zero z = true -> is_finite x = true -> is_zero (z * x) = true.
Proof.
  intros Hz Hx. destruct (is_zero_cases Hz) as (sz & Ez).
  destruct (@is_finite_cases x Hx) as [(s & Ex)|(s & m & e & Ex)].
  - apply (@is_zero_of_spec _ (xorb sz s)). rewrite mul_spec, Ex, Ez.
    reflexivity.
  - apply (@is_zero_of_spec _ (xorb sz s)). rewrite mul_spec, Ex, Ez.
    reflexivity.
Qed.

(** A finite double other than zero, divided by a zero, is an infinity. *)
Lemma finite_div_zero (x z : float) :
  is_finite x = true -> is_zero x = false -> is_zero z = true ->
  is_infinity (x / z) = true.
Proof.
  intros Hx Hnz Hz. destruct (is_zero_cases Hz) as (sz & Ez).
  destruct (@is_finite_cases x Hx) as [(s & Ex)|(s & m & e & Ex)].
  - rewrite (@is_zero_of_spec _ s Ex) in Hnz. discriminate Hnz.
  - unfold is_infinity. rewrite FloatAxioms.eqb_spec, abs_spec, div_spec, Ex, Ez.
    destruct s, sz; reflexivity.
Qed.

Lemma at_map (f : float -> float) (v : Vector) (i : nat) :
  i < length v -> at_ (map f v) i = f (at_ v i).
Proof.
  intros Hi. unfold at_.
  rewrite (nth_indep (map f v) 0%float (f 0%float))
    by (rewrite length_map; exact Hi).
  apply map_nth.
Qed.

Section Facts.

Variable waterMolarMass : float.
Variable indexWater : nat.

Lemma length_concentrations (n : Vector) :
  length (concentrations waterMolarMass indexWater n) = length n.
Proof.
  unfold concentrations. destruct (sum n =? 0)%float.
  - apply repeat_length.
  - rewrite length_set_at, length_map. reflexivity.
Qed.

(** X19: the concentrations are as many as the amounts.  When the amounts add up
    to zero they are all [0] and nothing is divided; otherwise the entry of
    water is its molar fraction and every other entry is the amount over
    the mass of water. *)
Theorem concentrations_entries (n : Vector) :
  let c := concentrations waterMolarMass indexWater n in
  length c = length n /\
  ((sum n =? 0)%float = true -> c = repeat 0%float (length n)) /\
  ((sum n =? 0)%float = false ->
   forall i, i < length n ->
     at_ c i
     = if i =? indexWater then (at_ n indexWater / sum n)%float
       else (at_ n i / (at_ n indexWater * waterMolarMass))%float).
Proof.
  cbv zeta. split; [apply length_concentrations|].
  unfold concentrations. split; intros Hsum; rewrite Hsum.
  - reflexivity.
  - intros i Hi. rewrite at_set_at, length_map.
    apply Nat.ltb_lt in Hi. rewrite Hi, andb_true_r.
    destruct (i =? indexWater); [reflexivity|].
    apply at_map. apply Nat.ltb_lt. exact Hi.
Qed.

(** X20: a phase without water: when the amount of water is zero while the
    amounts do not add up to zero, the concentration of every species other
    than water whose amount is finite and not zero is infinite. *)
Theorem concentrations_without_water (n : Vector) (i : nat) :
  is_finite waterMolarMass = true ->
  (sum n =? 0)%float = false ->
  is_zero (at_ n indexWater) = true ->
  i < length n -> i <> indexWater ->
  is_finite (at_ n i) = true -> is_zero (at_ n i) = false ->
  is_infinity (at_ (concentrations waterMolarMass indexWater n) i) = true.
Proof.
  intros HM Hsum Hwater Hi Hne Hfin Hnz.
  destruct (concentrations_entries n) as (_ & _ & Hentries).
  rewrite (Hentries Hsum i Hi).
  apply Nat.eqb_neq in Hne. rewrite Hne.
  apply finite_div_zero; [exact Hfin | exact Hnz |].
  apply zero_mul_finite; assumption.
Qed.

End Facts.

End AqueousPhaseFacts.

Module SampleRuns.
Import Dense Interpolation InterpolationFacts AqueousPhase AqueousPhaseFacts
       Samples.

(** [interpolate_functions_componentwise] on the two functions, at 300 K
    and 100 000 Pa. *)
Lemma interpolate_functions_componentwise_witness :
  nth 1
    (interpolate_functions exact_of_data exact_of_function exact_at
       temperature_of pressure_of [300; 400]%float [100000]%float
       [sum_of; product_of] (temperature_of 300) (pressure_of 100000))
    (mkThermoScalar 0 0 0)
  = interpolate_function exact_of_function exact_at temperature_of
      pressure_of [300; 400]%float [100000]%float product_of
      (temperature_of 300) (pressure_of 100000).
Proof.
  apply (proj2 (@interpolate_functions_componentwise _ exact_of_data
                  exact_of_function exact_at temperature_of pressure_of
                  [300; 400]%float [100000]%float [sum_of; product_of]
                  (temperature_of 300) (pressure_of 100000))
           1 (mkThermoScalar 0 0 0)).
  simpl. lia.
Defined.

(** [concentrations_entries] on a mole of water and half a mole of a
    solute: the entry of water is its molar fraction. *)
Lemma concentrations_entries_witness :
  at_ (concentrations water_molar_mass 0 [1; 0.5]%float) 0
  = (1 / 1.5)%float.
Proof.
  apply (proj2 (proj2 (concentrations_entries water_molar_mass 0
                         [1; 0.5]%float))
           ltac:(vm_compute; reflexivity) 0).
  simpl. lia.
Defined.

(** [concentrations_without_water] on a mole of a solute and no water. *)
Lemma concentrations_without_water_witness :
  is_infinity (at_ (concentrations water_molar_mass 0 [0; 1]%float) 1) = true.
Proof.
  apply concentrations_without_water.
  - vm_compute; reflexivity.
  - vm_compute; reflexivity.
  - vm_compute; reflexivity.
  - simpl. lia.
  - discriminate.
  - vm_compute; reflexivity.
  - vm_compute; reflexivity.
Defined.

End SampleRuns.

(** ** Steps of the two-species system *)

Module StepRuns.
Import Dense DenseFacts KineticPath KineticPathFacts KineticPathSteps
       TwoSpecies.


(** C9 as stated fails: in [huge] the product [We * tr(Se)] is beyond the
    doubles, so [A] holds an infinity; the rate is zero, and the derivative
    [function] returns holds a NaN, not a zero. *)
Lemma zero_rates_nan_derivative :
  ~ (forall (impl : Impl unit unit) state t u res c res'
            (impl' : Impl unit unit) state',
        function equilibrium_ops impl state t u res
        = (Normal c, res', impl', state') ->
        Forall (fun x => is_zero x = true) (val (r impl')) ->
        Forall (fun x => is_zero x = true) res').
Proof.
  intros Hclaim.
  set (F := function equilibrium_ops huge (state_of [1; 1]%float) 0%float
              [1; 1]%float [0; 0]%float).
  assert (Hrun : F = (Normal 0%Z, snd (fst (fst F)), snd (fst F), snd F))
    by (vm_compute; reflexivity).
  assert (Hzero : Forall (fun x => is_zero x = true) (val (r (snd (fst F)))))
    by (vm_compute; repeat constructor).
  pose proof (Hclaim _ _ _ _ _ _ _ _ _ Hrun Hzero) as Hres.
  apply Forall_inv in Hres. vm_compute in Hres. discriminate Hres.
Qed.

(** [zero_rates_leave_u_unchanged] on [still], one mole of each species. *)
Lemma zero_rates_leave_u_unchanged_witness :
  benk (snd (fst (step_until equilibrium_ops integrator still
                    (state_of [1; 1]%float) 0%float 10%float)))
  = mat_vec (We still) (rows [1; 1]%float (ispecies_e still))
    ++ rows [1; 1]%float (ispecies_k still).
Proof.
  set (F := step_until equilibrium_ops integrator still
              (state_of [1; 1]%float) 0%float 10%float).
  destruct (@zero_rates_leave_u_unchanged unit unit equilibrium_ops integrator
              still_blank still the_partition (state_of [1; 1]%float)
              0%float 10%float) as (_ & Hstep).
  - unfold same_partition;
      repeat (split; [vm_compute; reflexivity|]); vm_compute; reflexivity.
  - reflexivity.
  - reflexivity.
  - intros [|[|i]] [|k] Hi Hk; try (vm_compute; reflexivity);
      vm_compute in Hi, Hk; lia.
  - vm_compute; reflexivity.
  - apply Runs.euler_callback_driven.
  - destruct Hstep as (_ & Hstep).
    + intros T P composition activity. vm_compute. repeat constructor.
    + apply (Hstep ltac:(intros _; vm_compute; reflexivity)
                   ltac:(vm_compute; reflexivity)
                   (fst (fst (fst F))) (snd (fst (fst F))) (snd (fst F))
                   (snd F) ltac:(vm_compute; reflexivity)).
Defined.

End StepRuns.

